(** * Faasm host interface: syscall bridge and OpenMP runtime

    A shallow embedding of [src/wasm/syscalls.cpp] and [src/wavm/openmp.cpp].

    Conventions.
    - A C++ [I32]/[int] is a [Z] in the signed 32-bit range, a [U32] a [Z] in
      [0, 2^32); a conversion between them is written out ([to_i32],
      [to_u32]).  Signed overflow is modelled as wrap-around.
    - Guest linear memory, the page counters and [growMemory] belong to the
      WAVM runtime, which is not part of this repository; they are modelled
      by the contract the intrinsics rely on (bounds-validated accessors,
      growth that fails with -1 beyond the maximum).
    - Calls into the host kernel are answered by an oracle and recorded in a
      trace, so that a property such as "no host call was made" is a
      statement about that trace.
    - The host stack that [alloca] draws from and the function table of the
      executing module are given from outside. *)

From Stdlib Require Import ZArith Lia List String Ascii Bool DecimalString Sorted.
From stdpp Require Import base gmap sets.
Import ListNotations.
Local Open Scope Z_scope.

(* ====================================================================== *)
(** * Part I: definitions                                                   *)
(* ====================================================================== *)

(** ** Fixed-width integers *)

Definition to_u32 (x : Z) : Z := x mod 4294967296.
Definition to_i32 (x : Z) : Z := (x + 2147483648) mod 4294967296 - 2147483648.
Definition to_u16 (x : Z) : Z := x mod 65536.
Definition to_i16 (x : Z) : Z := (x + 32768) mod 65536 - 32768.
Definition to_u8 (x : Z) : Z := x mod 256.
Definition to_i64 (x : Z) : Z :=
  (x + 9223372036854775808) mod 18446744073709551616 - 9223372036854775808.

Definition is_i32 (x : Z) : Prop := -2147483648 <= x <= 2147483647.
Definition is_u32 (x : Z) : Prop := 0 <= x < 4294967296.

(** ** Outcomes of an intrinsic *)

(** The ways an intrinsic fails to return normally: the WAVM exception
    [calledUnimplementedIntrinsicType] raised by the intrinsics themselves;
    the fault raised by the validated memory accessors on a range outside
    the guest memory; a C++ [std::runtime_error] with its message and the
    number formatted into it; an operation C++ leaves undefined (division
    by zero, a store through a null pointer, a stack block that does not
    fit); a thread that waits for a lock another thread holds; the
    [fmt::format_error] that [fmt::format] raises on a malformed format
    string; and the [std::length_error] of a container asked for more than
    its maximal size. *)
Inductive Trap : Type :=
| calledUnimplementedIntrinsic
| outOfBoundsMemoryAccess
| runtime_error (what : string) (arg : option Z)
| undefinedBehaviour
| blockedOnLock
| format_error
| length_error.

Inductive Res (A : Type) : Type :=
| Ok (a : A)
| Throw (t : Trap).
Arguments Ok {A} a.
Arguments Throw {A} t.

(** State-passing computations that may trap; the state reached at the trap
    is kept, so that what happened before it can be inspected. *)
Definition Exec (S A : Type) : Type := S -> Res A * S.

Definition ret {S A : Type} (a : A) : Exec S A := fun s => (Ok a, s).

Definition bind {S A B : Type} (c : Exec S A) (k : A -> Exec S B) : Exec S B :=
  fun s =>
    match c s with
    | (Ok a, s') => k a s'
    | (Throw t, s') => (Throw t, s')
    end.

Definition throwException {S A : Type} (t : Trap) : Exec S A :=
  fun s => (Throw t, s).

Notation "'let*' x ':=' c 'in' k" := (bind c (fun x => k))
  (at level 10, x pattern, c at level 100, k at level 200).
Notation "c ';;;' k" := (bind c (fun _ => k))
  (at level 100, k at level 200, right associativity).

(** ** Guest linear memory (WAVM runtime) *)

Module Runtime.

Definition numBytesPerPage : Z := 65536.

Record Memory : Type := mkMemory {
  numPages : Z;
  maxPages : Z;
  bytes : Z -> Z
}.

Definition memSize (m : Memory) : Z := numPages m * numBytesPerPage.

(** [getValidatedMemoryOffsetRange]: the range [off, off + n) lies inside the
    memory.  An [I32] pointer cast to [Uptr] is sign-extended, so a negative
    pointer is far beyond any memory; it is rejected by [0 <=? off]. *)
Definition validRange (m : Memory) (off n : Z) : bool :=
  (0 <=? off) && (0 <=? n) && (off + n <=? memSize m).

Definition load8 (m : Memory) (a : Z) : Z := bytes m a mod 256.

Definition load_u16 (m : Memory) (a : Z) : Z :=
  load8 m a + 256 * load8 m (a + 1).

Definition load_u32 (m : Memory) (a : Z) : Z :=
  load8 m a + 256 * load8 m (a + 1) + 65536 * load8 m (a + 2)
  + 16777216 * load8 m (a + 3).

Definition load_i32 (m : Memory) (a : Z) : Z := to_i32 (load_u32 m a).

Definition upd (f : Z -> Z) (a v : Z) : Z -> Z :=
  fun x => if x =? a then v else f x.

Definition store8 (m : Memory) (a v : Z) : Memory :=
  mkMemory (numPages m) (maxPages m) (upd (bytes m) a (v mod 256)).

Definition store16 (m : Memory) (a v : Z) : Memory :=
  store8 (store8 m a v) (a + 1) (v / 256).

Definition store32 (m : Memory) (a v : Z) : Memory :=
  store8 (store8 (store8 (store8 m a v) (a + 1) (v / 256))
            (a + 2) (v / 65536)) (a + 3) (v / 16777216).

Fixpoint store_bytes (m : Memory) (a : Z) (l : list Z) : Memory :=
  match l with
  | [] => m
  | b :: l' => store_bytes (store8 m a b) (a + 1) l'
  end.

Fixpoint load_bytes (m : Memory) (a : Z) (n : nat) : list Z :=
  match n with
  | O => []
  | S n' => load8 m a :: load_bytes m (a + 1) n'
  end.

Definition getMemoryNumPages (m : Memory) : Z := numPages m.
Definition getMemoryMaxPages (m : Memory) : Z := maxPages m.

(** The page limit of a 32-bit address space. *)
Definition maxMemoryPages : Z := 65536.

(** [growMemory]: returns the previous page count, or -1 and no change when
    the growth would exceed the memory's maximum or the 32-bit address
    space; growing by zero pages always succeeds. *)
Definition growMemory (m : Memory) (numNewPages : Z) : Z * Memory :=
  if numNewPages =? 0 then (numPages m, m)
  else if (maxPages m <? numNewPages)
          || (maxPages m - numNewPages <? numPages m)
          || (maxMemoryPages - numNewPages <? numPages m)
       then (-1, m)
       else (numPages m,
             mkMemory (numPages m + numNewPages) (maxPages m) (bytes m)).

End Runtime.
Import Runtime.

(** ** The syscall bridge ([src/wasm/syscalls.cpp]) *)

Module Syscalls.

(** *** Host kernel interface *)

(** Native [sockaddr]: family and 14 bytes of data. *)
Record sockaddr : Type := mkSockaddr {
  sa_family : Z;
  sa_data : list Z
}.

(** The kernel calls the intrinsics make, with the values they pass.  A
    buffer handed to the kernel for reading is given by its contents, a
    buffer to be filled by its length. *)
Inductive HostCall : Type :=
| host_open (path : string) (flags mode : Z)
| host_read (fd count : Z)
| host_close (fd : Z)
| host_poll (fd events revents nfds timeout : Z)
| host_writev (fd : Z) (iov : list (list Z))
| host_socket (domain type protocol : Z)
| host_connect (fd : Z) (addr : sockaddr) (len : Z)
| host_send (fd : Z) (buf : list Z) (flags : Z)
| host_recv (fd len flags : Z)
| host_sendto (fd : Z) (buf : list Z) (flags : Z) (addr : sockaddr) (len : Z)
| host_recvfrom (fd len flags : Z) (addr : sockaddr) (addrlen : Z)
| host_bind (fd : Z) (addr : sockaddr) (len : Z)
| host_getsockname (fd : Z) (addr : sockaddr) (addrlen : Z)
| host_clock_gettime (clockId : Z).

(** What the kernel hands back: the return value and whatever it wrote
    through the pointers it was given. *)
Record HostReply : Type := mkReply {
  retval : Z;
  out_buf : list Z;
  out_addr : sockaddr;
  out_len : Z;
  out_sec : Z;
  out_nsec : Z;
  out_revents : Z
}.

(** The host is an arbitrary function of the calls made so far and the
    current call. *)
Definition Host : Type := list HostCall -> HostCall -> HostReply.

(** *** Thread state *)

(** [openFds] and [dummyClock] are the thread-local variables of the file;
    [memory] is the executing module's memory; [trace] lists the kernel
    calls made so far, oldest first. *)
Record State : Type := mkState {
  memory : Memory;
  openFds : gset Z;
  dummyClock : Z;
  trace : list HostCall
}.

Definition set_memory (m : Memory) (st : State) : State :=
  mkState m (openFds st) (dummyClock st) (trace st).
Definition set_openFds (f : gset Z) (st : State) : State :=
  mkState (memory st) f (dummyClock st) (trace st).
Definition set_dummyClock (c : Z) (st : State) : State :=
  mkState (memory st) (openFds st) c (trace st).

Definition getModuleMemory : Exec State Memory := fun st => (Ok (memory st), st).
Definition putModuleMemory (m : Memory) : Exec State unit :=
  fun st => (Ok tt, set_memory m st).

(** [Runtime::memoryRef<T>] / [Runtime::memoryArrayPtr<T>]: validate
    [n] bytes at [off]. *)
Definition memoryRange (off n : Z) : Exec State unit :=
  fun st => if validRange (memory st) off n then (Ok tt, st)
            else (Throw outOfBoundsMemoryAccess, st).

Definition hostcall (host : Host) (c : HostCall) : Exec State HostReply :=
  fun st => (Ok (host (trace st) c),
             mkState (memory st) (openFds st) (dummyClock st) (trace st ++ [c])).

Definition HOSTS_FILE : string := "/usr/share/faasm/net/hosts".
Definition RESOLV_FILE : string := "/usr/share/faasm/net/resolv.conf".
Definition STDOUT_FILENO : Z := 1.

Definition bytes_of_string (s : string) : list Z :=
  map (fun c => Z.of_nat (nat_of_ascii c)) (list_ascii_of_string s).

(** [strcmp(path, lit) == 0] for a literal without NUL bytes: the bytes at
    [p] are those of [lit], followed by the terminator.  [strcmp] reads
    through the raw host pointer, without validation. *)
Fixpoint strcmp_eq (m : Memory) (p : Z) (lit : list Z) : bool :=
  match lit with
  | [] => load8 m p =? 0
  | c :: rest => (load8 m p =? c) && strcmp_eq m (p + 1) rest
  end.

(** The NUL-terminated string stored at [p] is [s]. *)
Fixpoint cstring_at (m : Memory) (p : Z) (s : list Z) : Prop :=
  match s with
  | [] => load8 m p = 0
  | c :: rest => c <> 0 /\ load8 m p = c /\ cstring_at m (p + 1) rest
  end.

(** *** I/O - supported *)

Definition checkThreadOwnsFd (fd : Z) : Exec State unit :=
  fun st => if bool_decide (fd ∈ openFds st) then (Ok tt, st)
            else (Throw calledUnimplementedIntrinsic, st).

Section WithHost.
Variable host : Host.

(** The bytes of host stack that are left for [alloca] when an intrinsic
    is entered. *)
Variable hostStack : Z.

Definition __syscall_open (pathPtr flags mode : Z) : Exec State Z :=
  if negb (mode =? 0) then throwException calledUnimplementedIntrinsic
  else
    memoryRange pathPtr 1 ;;;
    let* m := getModuleMemory in
    let* fd :=
      (if strcmp_eq m pathPtr (bytes_of_string "/etc/hosts") then
         let* r := hostcall host (host_open HOSTS_FILE 0 0) in ret (retval r)
       else if strcmp_eq m pathPtr (bytes_of_string "/etc/resolv.conf") then
         let* r := hostcall host (host_open RESOLV_FILE 0 0) in ret (retval r)
       else ret (-1)) in
    if 0 <? fd then
      (fun st => (Ok fd, set_openFds ({[fd]} ∪ openFds st) st))
    else throwException calledUnimplementedIntrinsic.

Definition __syscall_fcntl64 (fd cmd c : Z) : Exec State Z :=
  checkThreadOwnsFd fd ;;;
  ret 0.

Definition __syscall_read (fd bufPtr count : Z) : Exec State Z :=
  checkThreadOwnsFd fd ;;;
  memoryRange bufPtr count ;;;
  let* r := hostcall host (host_read fd count) in
  let* m := getModuleMemory in
  putModuleMemory (store_bytes m bufPtr (firstn (Z.to_nat count) (out_buf r))) ;;;
  ret (to_i32 (retval r)).

Definition __syscall_close (fd : Z) : Exec State Z :=
  checkThreadOwnsFd fd ;;;
  (fun st => (Ok tt, set_openFds (openFds st ∖ {[fd]}) st)) ;;;
  let* _ := hostcall host (host_close fd) in
  ret 0.

(** [pollfd]: 32-bit [fd] at offset 0, 16-bit [events] at 4, 16-bit
    [revents] at 6.  The kernel reports through [revents]. *)
Definition __syscall_poll (fdsPtr nfds timeout : Z) : Exec State Z :=
  if negb (nfds =? 1) then throwException calledUnimplementedIntrinsic
  else
    memoryRange fdsPtr 8 ;;;
    let* m := getModuleMemory in
    let fd := load_i32 m fdsPtr in
    checkThreadOwnsFd fd ;;;
    let* r := hostcall host
                (host_poll fd (to_i16 (load_u16 m (fdsPtr + 4)))
                   (to_i16 (load_u16 m (fdsPtr + 6))) nfds timeout) in
    putModuleMemory (store16 m (fdsPtr + 6) (out_revents r)) ;;;
    ret (retval r).

(** One shadow [iovec] entry per index below [n]: the base and length
    words are read at [iov + i * 8] and [iov + i * 8 + 4] (in [U32]
    arithmetic), then the byte range they name is validated. *)
Fixpoint gather_iovec (m : Memory) (iov : Z) (i : Z) (n : nat)
  : Res (list (list Z)) :=
  match n with
  | O => Ok []
  | S n' =>
      let entry := to_u32 (iov + i * 8) in
      if negb (validRange m entry 4) then Throw outOfBoundsMemoryAccess
      else
        let base := load_u32 m entry in
        let entry4 := to_u32 (iov + i * 8 + 4) in
        if negb (validRange m entry4 4) then Throw outOfBoundsMemoryAccess
        else
          let len := load_u32 m entry4 in
          if negb (validRange m base len) then Throw outOfBoundsMemoryAccess
          else
            match gather_iovec m iov (i + 1) n' with
            | Ok rest => Ok (load_bytes m base (Z.to_nat len) :: rest)
            | Throw t => Throw t
            end
  end.

(** [sizeof(iovec)] on the 64-bit host: a pointer and a [size_t]. *)
Definition sizeof_iovec : Z := 16.

(** [new (alloca (sizeof (iovec) * iovcnt)) struct iovec[iovcnt]]: the
    native array is taken from the host stack.  A negative count is an
    erroneous array size, and a block larger than what is left of the
    stack overruns it: C++ leaves both undefined. *)
Definition alloca_iovec (iovcnt : Z) : Exec State unit :=
  if (iovcnt <? 0) || (hostStack <? sizeof_iovec * iovcnt)
  then throwException undefinedBehaviour
  else ret tt.

Definition __syscall_writev (fd iov iovcnt : Z) : Exec State Z :=
  alloca_iovec iovcnt ;;;
  let* m := getModuleMemory in
  match gather_iovec m iov 0 (Z.to_nat (to_u32 iovcnt)) with
  | Throw t => throwException t
  | Ok native_iovec =>
      let* r := hostcall host (host_writev STDOUT_FILENO native_iovec) in
      ret (to_i32 (retval r))
  end.

(** *** Sockets / network *)

Definition sc_socket : Z := 1.
Definition sc_bind : Z := 2.
Definition sc_connect : Z := 3.
Definition sc_listen : Z := 4.
Definition sc_accept : Z := 5.
Definition sc_getsockname : Z := 6.
Definition sc_getpeername : Z := 7.
Definition sc_socketpair : Z := 8.
Definition sc_send : Z := 9.
Definition sc_recv : Z := 10.
Definition sc_sendto : Z := 11.
Definition sc_recvfrom : Z := 12.
Definition sc_shutdown : Z := 13.
Definition sc_setsockopt : Z := 14.
Definition sc_getsockopt : Z := 15.
Definition sc_sendmsg : Z := 16.
Definition sc_recvmsg : Z := 17.
Definition sc_accept4 : Z := 18.
Definition sc_recvmmsg : Z := 19.
Definition sc_sendmmsg : Z := 20.

(** [wasm_sockaddr]: 16-bit family at offset 0, 14 data bytes at offset 2. *)
Definition getSockAddr (addrPtr : Z) : Exec State sockaddr :=
  memoryRange addrPtr 16 ;;;
  let* m := getModuleMemory in
  ret (mkSockaddr (load_u16 m addrPtr) (load_bytes m (addrPtr + 2) 14)).

Definition setSockAddr (nativeSockAddr : sockaddr) (addrPtr : Z) : Exec State unit :=
  memoryRange addrPtr 16 ;;;
  let* m := getModuleMemory in
  putModuleMemory
    (store_bytes (store16 m addrPtr (sa_family nativeSockAddr)) (addrPtr + 2)
       (firstn 14 (sa_data nativeSockAddr))).

Definition setSockLen (nativeValue wasmPtr : Z) : Exec State unit :=
  memoryRange wasmPtr 4 ;;;
  let* m := getModuleMemory in
  putModuleMemory (store32 m wasmPtr nativeValue).

(** [subCallArgs[i]] of the packed argument array at [argsPtr]. *)
Definition subCallArg (m : Memory) (argsPtr : Z) (i : Z) : Z :=
  load_u32 m (argsPtr + 4 * i).

Definition sizeof_sockaddr : Z := 16.

Definition socketcall_socket (argsPtr : Z) : Exec State Z :=
  memoryRange argsPtr 12 ;;;
  let* m := getModuleMemory in
  let domain := subCallArg m argsPtr 0 in
  let type := subCallArg m argsPtr 1 in
  let protocol := subCallArg m argsPtr 2 in
  let* r := hostcall host (host_socket domain type protocol) in
  let sock := to_i32 (retval r) in
  (fun st => (Ok tt, set_openFds ({[sock]} ∪ openFds st) st)) ;;;
  ret sock.

Definition socketcall_connect (argsPtr : Z) : Exec State Z :=
  memoryRange argsPtr 12 ;;;
  let* m := getModuleMemory in
  let sockfd := to_i32 (subCallArg m argsPtr 0) in
  let addrPtr := to_i32 (subCallArg m argsPtr 1) in
  checkThreadOwnsFd sockfd ;;;
  let* addr := getSockAddr addrPtr in
  let* r := hostcall host (host_connect sockfd addr sizeof_sockaddr) in
  ret (retval r).

(** The shared body of [sc_recv], [sc_recvfrom], [sc_sendto] and [sc_send]. *)
Definition socketcall_transfer (call argsPtr : Z) : Exec State Z :=
  let argCount :=
    if (call =? sc_sendto) || (call =? sc_recvfrom) then 6 else 4 in
  memoryRange argsPtr (argCount * 4) ;;;
  let* m := getModuleMemory in
  let sockfd := to_i32 (subCallArg m argsPtr 0) in
  let bufPtr := subCallArg m argsPtr 1 in
  let bufLen := subCallArg m argsPtr 2 in
  let flags := to_i32 (subCallArg m argsPtr 3) in
  checkThreadOwnsFd sockfd ;;;
  memoryRange bufPtr bufLen ;;;
  if call =? sc_send then
    let* r := hostcall host
                (host_send sockfd (load_bytes m bufPtr (Z.to_nat bufLen)) flags) in
    ret (to_i32 (retval r))
  else if call =? sc_recv then
    let* r := hostcall host (host_recv sockfd bufLen flags) in
    putModuleMemory
      (store_bytes m bufPtr (firstn (Z.to_nat bufLen) (out_buf r))) ;;;
    ret (to_i32 (retval r))
  else
    let sockAddrPtr := to_i32 (subCallArg m argsPtr 4) in
    let* sockAddr := getSockAddr sockAddrPtr in
    let nativeAddrLen := sizeof_sockaddr in
    let addrLen := subCallArg m argsPtr 5 in
    if call =? sc_sendto then
      let* r := hostcall host
                  (host_sendto sockfd (load_bytes m bufPtr (Z.to_nat bufLen))
                     flags sockAddr nativeAddrLen) in
      ret (to_i32 (retval r))
    else
      let* r := hostcall host
                  (host_recvfrom sockfd bufLen flags sockAddr nativeAddrLen) in
      putModuleMemory
        (store_bytes m bufPtr (firstn (Z.to_nat bufLen) (out_buf r))) ;;;
      setSockAddr (out_addr r) sockAddrPtr ;;;
      setSockLen (out_len r) (to_i32 addrLen) ;;;
      ret (to_i32 (retval r)).

Definition socketcall_bind (argsPtr : Z) : Exec State Z :=
  memoryRange argsPtr 12 ;;;
  let* m := getModuleMemory in
  let sockfd := to_i32 (subCallArg m argsPtr 0) in
  let addrPtr := to_i32 (subCallArg m argsPtr 1) in
  let* addr := getSockAddr addrPtr in
  checkThreadOwnsFd sockfd ;;;
  let* r := hostcall host (host_bind sockfd addr sizeof_sockaddr) in
  ret (to_i32 (retval r)).

Definition socketcall_getsockname (argsPtr : Z) : Exec State Z :=
  memoryRange argsPtr 12 ;;;
  let* m := getModuleMemory in
  let sockfd := to_i32 (subCallArg m argsPtr 0) in
  let addrPtr := to_i32 (subCallArg m argsPtr 1) in
  let addrLenPtr := to_i32 (subCallArg m argsPtr 2) in
  checkThreadOwnsFd sockfd ;;;
  let* nativeAddr := getSockAddr addrPtr in
  let* r := hostcall host
              (host_getsockname sockfd nativeAddr sizeof_sockaddr) in
  setSockAddr (out_addr r) addrPtr ;;;
  setSockLen (out_len r) addrLenPtr ;;;
  ret (retval r).

Definition __syscall_socketcall (call argsPtr : Z) : Exec State Z :=
  if call =? sc_socket then socketcall_socket argsPtr
  else if call =? sc_connect then socketcall_connect argsPtr
  else if (call =? sc_recv) || (call =? sc_recvfrom)
          || (call =? sc_sendto) || (call =? sc_send)
       then socketcall_transfer call argsPtr
  else if call =? sc_bind then socketcall_bind argsPtr
  else if call =? sc_getsockname then socketcall_getsockname argsPtr
  else if (call =? sc_getpeername) || (call =? sc_socketpair)
          || (call =? sc_shutdown) || (call =? sc_setsockopt)
          || (call =? sc_getsockopt) || (call =? sc_sendmsg)
          || (call =? sc_recvmsg) || (call =? sc_accept4)
          || (call =? sc_recvmmsg) || (call =? sc_sendmmsg)
       then ret 0
  else if (call =? sc_accept) || (call =? sc_listen)
       then throwException calledUnimplementedIntrinsic
  else ret 0.

(** *** Timing *)

(** [wasm_timespec]: 32-bit [tv_sec] at offset 0, 32-bit [tv_nsec] at 4.
    The reply carries the native [timespec] as the kernel left it, whatever
    the return code. *)
Definition __syscall_clock_gettime (clockId resultAddress : Z) : Exec State Z :=
  memoryRange resultAddress 8 ;;;
  let* r := hostcall host (host_clock_gettime clockId) in
  let* m := getModuleMemory in
  putModuleMemory
    (store32 (store32 m resultAddress (to_i32 (out_sec r)))
       (resultAddress + 4) (to_i32 (out_nsec r))) ;;;
  (fun st => (Ok tt, set_dummyClock (to_i32 (dummyClock st + 1)) st)) ;;;
  ret 0.

(** *** Memory - supported *)

(** [addr], [length], [prot], [flags] and [offset] are [U32], [fd] is
    [I32]; the page count is computed in 64-bit [Uptr] arithmetic. *)
Definition __syscall_mmap (addr length prot flags fd offset : Z) : Exec State Z :=
  if negb (fd =? -1) then throwException calledUnimplementedIntrinsic
  else
    let numPages := (length + numBytesPerPage - 1) / numBytesPerPage in
    let* m := getModuleMemory in
    let (basePageIndex, m') := growMemory m numPages in
    putModuleMemory m' ;;;
    ret (to_i32 (basePageIndex * numBytesPerPage)).

(** [addr] is [U32].  A target beyond [getMemoryMaxPages] is only logged. *)
Definition __syscall_brk (addr : Z) : Exec State Z :=
  let targetPageCount := addr / numBytesPerPage in
  let* memory := getModuleMemory in
  let currentPageCount := getMemoryNumPages memory in
  let currentBreak := to_u32 (currentPageCount * numBytesPerPage) in
  if targetPageCount <=? currentPageCount then ret (to_i32 currentBreak)
  else
    let expansion := targetPageCount - currentPageCount in
    putModuleMemory (snd (growMemory memory expansion)) ;;;
    ret (to_i32 currentBreak).

End WithHost.

(** The descriptor a socket sub-call is about: word 0 of its arguments. *)
Definition sockfd_of (st : State) (argsPtr : Z) : Z :=
  to_i32 (subCallArg (memory st) argsPtr 0).


(** The break [brk] reports for a state, as an unsigned address. *)
Definition break_of (st : State) : Z :=
  to_u32 (numPages (memory st) * numBytesPerPage).

(** A run of successive [brk] calls; the breaks it returns, read as
    unsigned addresses, in call order. *)
Fixpoint brk_sequence (addrs : list Z) (st : State) : list Z :=
  match addrs with
  | [] => []
  | a :: rest =>
      match __syscall_brk a st with
      | (Ok b, st') => to_u32 b :: brk_sequence rest st'
      | (Throw _, st') => brk_sequence rest st'
      end
  end.

End Syscalls.

(** ** The OpenMP runtime ([src/wavm/openmp.cpp]) *)

Module OpenMP.

Module kmp.

Definition sch_lower : Z := 32.
Definition sch_static_chunked : Z := 33.
Definition sch_static : Z := 34.

Inductive _reduction_method : Type :=
| reduction_method_not_defined
| critical_reduce_block
| atomic_reduce_block
| tree_reduce_block
| empty_reduce_block.

Definition reduction_method_value (r : _reduction_method) : Z :=
  match r with
  | reduction_method_not_defined => 0
  | critical_reduce_block => Z.shiftl 1 8
  | atomic_reduce_block => Z.shiftl 2 8
  | tree_reduce_block => Z.shiftl 3 8
  | empty_reduce_block => Z.shiftl 4 8
  end.

End kmp.

(** The fields of [OMPLevel] the intrinsics below touch.  [reduceMutex] is
    [Some t] while thread [t] holds it. *)
Record OMPLevel : Type := mkLevel {
  num_threads : Z;
  pushed_num_threads : Z;
  reduceMutex : option Z
}.

(** What the scheduler, the message bus, the state store, the platform
    threads and the function table of the executing module answer.
    [get_next_level_num_threads] is a member of [OMPLevel] whose definition
    is not in the sources at hand; it is taken as given.  [tableFunction i]
    is [Runtime::asFunction (Runtime::getTableElement (defaultTable, i))]:
    the function at index [i] of the table, or what the lookup raises. *)
Inductive WaitResult : Type :=
| FunctionResult (returnvalue : Z)
| RedisNoResponseException
| OtherException.

Record Env : Type := mkEnv {
  get_next_level_num_threads : OMPLevel -> Z;
  executingCallId : Z;
  snapshotToState : string -> Z;
  newCallId : Z -> Z;
  chainedCallTimeout : Z;
  getFunctionResult : Z -> Z -> WaitResult;
  redisGetLong : string -> Z;
  joinThread : Z -> Z;
  tableFunction : Z -> Res Z
}.

Inductive Event : Type :=
| ev_setLong (key : string) (v : Z)
| ev_snapshotToState (key : string)
| ev_callFunction (threadNum callId : Z) (ompFunctionArgs : list Z)
| ev_notifyAwaiting
| ev_getFunctionResult (callId timeoutMs : Z)
| ev_notifyFinishedAwaiting
| ev_getLong (key : string)
| ev_createThread (tid : Z) (funcArgs : list Z)
| ev_joinThread (tid : Z).

(** [thisLevel] and [thisThreadNumber] are the thread-local context;
    [userNumDevice], [activeSnapshotKey] and [threadSnapshotSize] the
    globals of the file; [events] the calls made to collaborators so far,
    oldest first. *)
Record State : Type := mkState {
  thisLevel : OMPLevel;
  thisThreadNumber : Z;
  defaultMemory : Memory;
  userNumDevice : Z;
  activeSnapshotKey : string;
  threadSnapshotSize : Z;
  events : list Event
}.

Definition set_level (l : OMPLevel) (st : State) : State :=
  mkState l (thisThreadNumber st) (defaultMemory st) (userNumDevice st)
    (activeSnapshotKey st) (threadSnapshotSize st) (events st).
Definition set_memory (m : Memory) (st : State) : State :=
  mkState (thisLevel st) (thisThreadNumber st) m (userNumDevice st)
    (activeSnapshotKey st) (threadSnapshotSize st) (events st).
Definition set_snapshot (key : string) (size : Z) (st : State) : State :=
  mkState (thisLevel st) (thisThreadNumber st) (defaultMemory st)
    (userNumDevice st) key size (events st).
Definition emit (e : Event) : Exec State unit :=
  fun st => (Ok tt,
             mkState (thisLevel st) (thisThreadNumber st) (defaultMemory st)
               (userNumDevice st) (activeSnapshotKey st)
               (threadSnapshotSize st) (events st ++ [e])).

Definition get {A : Type} (f : State -> A) : Exec State A :=
  fun st => (Ok (f st), st).

(** [Runtime::memoryRef<I32>]: validation of the four bytes at [p]. *)
Definition memoryRef (p : Z) : Exec State unit :=
  fun st => if validRange (defaultMemory st) p 4 then (Ok tt, st)
            else (Throw outOfBoundsMemoryAccess, st).

(** Read and write through a validated [I32*]. *)
Definition rd (p : Z) : Exec State Z :=
  fun st => (Ok (load_i32 (defaultMemory st) p), st).
Definition wr (p v : Z) : Exec State unit :=
  fun st => (Ok tt, set_memory (store32 (defaultMemory st) p v) st).

Definition REDUCE_KEY : string := "omp_wowzoid".

(** *** Static loop partitioning *)

(** The [unsigned int tripCount] of the four cases on [incr]; the division
    is C's, truncating towards zero, and is undefined for [incr = 0]. *)
Definition tripCount (lower upper incr : Z) : Res Z :=
  if incr =? 1 then Ok (to_u32 (to_i32 (to_i32 (upper - lower) + 1)))
  else if incr =? -1 then Ok (to_u32 (to_i32 (to_i32 (lower - upper) + 1)))
  else if 0 <? incr then
    Ok (to_u32 (to_i32 (Z.quot (to_i32 (upper - lower)) incr + 1)))
  else if incr =? 0 then Throw undefinedBehaviour
  else Ok (to_u32 (to_i32 (Z.quot (to_i32 (lower - upper)) (to_i32 (- incr)) + 1))).

Definition bool_to_Z (b : bool) : Z := if b then 1 else 0.

Definition __kmpc_for_static_init_4
  (loc gtid schedule lastIterPtr lowerPtr upperPtr stridePtr incr chunk : Z)
  : Exec State unit :=
  let lastIter := lastIterPtr in
  let lower := lowerPtr in
  let upper := upperPtr in
  let stride := stridePtr in
  memoryRef lastIterPtr ;;;
  memoryRef lowerPtr ;;;
  memoryRef upperPtr ;;;
  memoryRef stridePtr ;;;
  let* N := get (fun st => num_threads (thisLevel st)) in
  let* tid := get thisThreadNumber in
  if N =? 1 then
    wr lastIter 1 ;;;
    let* u := rd upper in
    let* l := rd lower in
    wr stride (if 0 <? incr then to_i32 (to_i32 (u - l) + 1)
               else to_i32 (- to_i32 (to_i32 (l - u) + 1)))
  else
    let* u := rd upper in
    let* l := rd lower in
    match tripCount l u incr with
    | Throw t => throwException t
    | Ok tripCount =>
        if schedule =? kmp.sch_static_chunked then
          let chunk := if chunk <? 1 then 1 else chunk in
          let span := to_i32 (chunk * incr) in
          wr stride (to_i32 (span * N)) ;;;
          let* l := rd lower in
          wr lower (to_i32 (l + to_i32 (span * tid))) ;;;
          let* l := rd lower in
          wr upper (to_i32 (to_i32 (l + span) - incr)) ;;;
          if N =? 0 then throwException undefinedBehaviour
          else
            wr lastIter
              (bool_to_Z (to_u32 tid =?
                          (to_u32 (tripCount - 1) / to_u32 chunk) mod to_u32 N))
        else if schedule =? kmp.sch_static then
          (if tripCount <? to_u32 N then
             (if to_u32 tid <? tripCount then
                let* l := rd lower in
                wr lower (to_i32 (l + to_i32 (tid * incr))) ;;;
                let* l := rd lower in
                wr upper l
              else
                let* u := rd upper in
                wr lower (to_i32 (u + incr))) ;;;
             wr lastIter (bool_to_Z (to_u32 tid =? to_u32 (tripCount - 1)))
           else if N =? 0 then throwException undefinedBehaviour
           else
             let small_chunk := tripCount / to_u32 N in
             let extras := tripCount mod to_u32 N in
             let* l := rd lower in
             wr lower
               (to_i32 (l + incr * (tid * small_chunk
                                    + (if to_u32 tid <? extras then tid
                                       else extras)))) ;;;
             let* l := rd lower in
             wr upper
               (to_i32 (l + small_chunk * incr
                        - (if to_u32 tid <? extras then 0 else incr))) ;;;
             wr lastIter (bool_to_Z (tid =? to_i32 (N - 1)))) ;;;
          wr stride (to_i32 tripCount)
        else
          throwException (runtime_error "Unimplemented scheduler" (Some schedule))
    end.

(** *** Reductions *)

Definition determineReductionMethod (l : OMPLevel) : kmp._reduction_method :=
  if num_threads l =? 1 then kmp.empty_reduce_block
  else kmp.critical_reduce_block.

(** [thisLevel->reduceMutex.lock()]: taken when free; a thread that finds
    it held does not proceed. *)
Definition reduceMutex_lock : Exec State unit :=
  fun st =>
    match reduceMutex (thisLevel st) with
    | None =>
        (Ok tt,
         set_level (mkLevel (num_threads (thisLevel st))
                      (pushed_num_threads (thisLevel st))
                      (Some (thisThreadNumber st))) st)
    | Some _ => (Throw blockedOnLock, st)
    end.

Definition startReduction : Exec State Z :=
  let* l := get thisLevel in
  match determineReductionMethod l with
  | kmp.critical_reduce_block => reduceMutex_lock ;;; ret 1
  | kmp.empty_reduce_block => ret 1
  | kmp.atomic_reduce_block => ret 2
  | kmp.reduction_method_not_defined
  | kmp.tree_reduce_block => ret 0
  end.

Definition __kmpc_reduce
  (loc gtid num_vars reduce_size reduce_data reduce_func lck : Z)
  : Exec State Z :=
  startReduction.

(** *** Forking a parallel region *)

Definition snapshotKey (callId : Z) : string :=
  String.append "omp_snapshot_" (NilZero.string_of_int (Z.to_int callId)).

(** [pointers[0 .. argc)] of the argument array at [argsPtr]. *)
Definition read_pointers (m : Memory) (argsPtr argc : Z) : list Z :=
  map (fun i => load_u32 m (argsPtr + 4 * Z.of_nat i)) (seq 0 (Z.to_nat argc)).

Section WithEnv.
Variable env : Env.

(** [reserve (n)] on a [std::vector], with [n] an [int]: a negative count
    becomes a size beyond [max_size], which [reserve] refuses. *)
Definition reserve (n : Z) : Exec State unit :=
  if n <? 0 then throwException length_error else ret tt.

(** [throw std::runtime_error (fmt::format ("{}} OMP threads have exited
    with errors", numErrors))]: the format string has a closing brace
    without an opening one, so [fmt::format] raises before the
    [runtime_error] is built. *)
Definition malformed_error_message {A : Type} : Exec State A :=
  throwException format_error.

(** One turn of the loop that creates the chained calls: the arguments are
    read again for every call, [reducePtr] is set from the first of them,
    and the identifier of the submitted call is kept. *)
Definition spawn_chained (argc argsPtr threadNum : Z) (reducePtr : option Z)
  : Exec State (option Z * Z) :=
  let* m := get defaultMemory in
  let* ra :=
    (if 0 <? argc then
       (fun st => if validRange (defaultMemory st) argsPtr (argc * 4)
                  then (Ok tt, st)
                  else (Throw outOfBoundsMemoryAccess, st)) ;;;
       let pointers := read_pointers m argsPtr argc in
       memoryRef (nth 0 pointers 0) ;;;
       ret (Some (nth 0 pointers 0), pointers)
     else ret (reducePtr, [])) in
  emit (ev_callFunction threadNum (newCallId env threadNum) (snd ra)) ;;;
  ret (fst ra, newCallId env threadNum).

Fixpoint spawn_all (argc argsPtr threadNum : Z) (n : nat)
  (reducePtr : option Z) : Exec State (option Z * list Z) :=
  match n with
  | O => ret (reducePtr, [])
  | S n' =>
      let* r := spawn_chained argc argsPtr threadNum reducePtr in
      let* rest := spawn_all argc argsPtr (threadNum + 1) n' (fst r) in
      ret (fst rest, snd r :: snd rest)
  end.

(** One turn of the loop that collects the results: [returnCode] starts at
    1 and is replaced only by the return value of a result that arrived. *)
Definition await_chained (callId : Z) : Exec State Z :=
  emit ev_notifyAwaiting ;;;
  emit (ev_getFunctionResult callId (chainedCallTimeout env)) ;;;
  let returnCode :=
    match getFunctionResult env callId (chainedCallTimeout env) with
    | FunctionResult v => v
    | RedisNoResponseException => 1
    | OtherException => 1
    end in
  emit ev_notifyFinishedAwaiting ;;;
  ret returnCode.

Fixpoint await_all (chainedThreads : list Z) (numErrors : Z) : Exec State Z :=
  match chainedThreads with
  | [] => ret numErrors
  | callId :: rest =>
      let* returnCode := await_chained callId in
      await_all rest (if returnCode =? 0 then numErrors else numErrors + 1)
  end.

Definition fork_distributed (argc microtaskPtr argsPtr : Z) : Exec State unit :=
  let* l := get thisLevel in
  let nextNumThreads := get_next_level_num_threads env l in
  reserve nextNumThreads ;;;
  emit (ev_setLong REDUCE_KEY 0) ;;;
  let* key := get activeSnapshotKey in
  (if String.eqb key EmptyString then
     let k := snapshotKey (executingCallId env) in
     emit (ev_snapshotToState k) ;;;
     (fun st => (Ok tt, set_snapshot k (snapshotToState env k) st))
   else throwException (runtime_error "OMP already bound" None)) ;;;
  let* spawned := spawn_all argc argsPtr 0 (Z.to_nat nextNumThreads) None in
  let* numErrors := await_all (snd spawned) 0 in
  if negb (numErrors =? 0) then malformed_error_message
  else
    emit (ev_getLong REDUCE_KEY) ;;;
    match fst spawned with
    | None => throwException undefinedBehaviour
    | Some reducePtr => wr reducePtr (redisGetLong env REDUCE_KEY)
    end.

(** Local mode: the argument vectors are built, the threads created, and
    their return codes summed, in an [I64], when they are joined. *)
Fixpoint build_args (argc argsPtr threadNum : Z) (n : nat)
  : Exec State (list (list Z)) :=
  match n with
  | O => ret []
  | S n' =>
      let* m := get defaultMemory in
      let* ptrs :=
        (if 0 <? argc then
           (fun st => if validRange (defaultMemory st) argsPtr (argc * 4)
                      then (Ok tt, st)
                      else (Throw outOfBoundsMemoryAccess, st)) ;;;
           ret (read_pointers m argsPtr argc)
         else ret []) in
      let* rest := build_args argc argsPtr (threadNum + 1) n' in
      ret ((threadNum :: argc :: ptrs) :: rest)
  end.

Fixpoint create_threads (threadNum : Z) (args : list (list Z)) : Exec State unit :=
  match args with
  | [] => ret tt
  | a :: rest =>
      emit (ev_createThread threadNum a) ;;;
      create_threads (threadNum + 1) rest
  end.

Fixpoint join_threads (threadNum : Z) (n : nat) (numErrors : Z) : Exec State Z :=
  match n with
  | O => ret numErrors
  | S n' =>
      emit (ev_joinThread threadNum) ;;;
      join_threads (threadNum + 1) n'
        (to_i64 (numErrors + joinThread env threadNum))
  end.

Definition fork_local (argc microtaskPtr argsPtr : Z) : Exec State unit :=
  let* l := get thisLevel in
  let nextNumThreads := get_next_level_num_threads env l in
  (fun st => (Ok tt, set_level (mkLevel (num_threads l) (-1) (reduceMutex l)) st)) ;;;
  reserve nextNumThreads ;;;
  let* args := build_args argc argsPtr 0 (Z.to_nat nextNumThreads) in
  create_threads 0 args ;;;
  let* numErrors := join_threads 0 (Z.to_nat nextNumThreads) 0 in
  if negb (numErrors =? 0) then malformed_error_message
  else ret tt.

(** The microtask is looked up in the function table before anything
    else is done. *)
Definition asFunction (microtaskPtr : Z) : Exec State Z :=
  fun st => (tableFunction env microtaskPtr, st).

Definition __kmpc_fork_call (locPtr argc microtaskPtr argsPtr : Z) : Exec State unit :=
  let* func := asFunction microtaskPtr in
  let* devices := get userNumDevice in
  if negb (devices =? 1) then fork_distributed argc microtaskPtr argsPtr
  else fork_local argc microtaskPtr argsPtr.

End WithEnv.

(** *** Notions used in the statements *)

(** Two 32-bit guest variables that do not overlap. *)
Definition apart (p q : Z) : Prop := p + 4 <= q \/ q + 4 <= p.

(** The four guest variables of a static loop are in memory and distinct. *)
Definition loop_variables (m : Memory) (lastIterPtr lowerPtr upperPtr stridePtr : Z)
  : Prop :=
  validRange m lastIterPtr 4 = true /\ validRange m lowerPtr 4 = true
  /\ validRange m upperPtr 4 = true /\ validRange m stridePtr 4 = true
  /\ apart lastIterPtr lowerPtr /\ apart lastIterPtr upperPtr
  /\ apart lastIterPtr stridePtr /\ apart lowerPtr upperPtr
  /\ apart lowerPtr stridePtr /\ apart upperPtr stridePtr.

(** The state of the team member with number [tid]: every member starts
    from the same loop bounds. *)
Definition as_thread (tid : Z) (st : State) : State :=
  mkState (thisLevel st) tid (defaultMemory st) (userNumDevice st)
    (activeSnapshotKey st) (threadSnapshotSize st) (events st).

(** Whether [i] is one of the values the loop
    [for (i = lower; i <= upper; i += incr)] (or [i >= upper] for a negative
    [incr]) takes on. *)
Definition iterates (lower upper incr i : Z) : bool :=
  if 0 <? incr then
    (lower <=? i) && (i <=? upper) && ((i - lower) mod incr =? 0)
  else
    (upper <=? i) && (i <=? lower) && ((lower - i) mod (- incr) =? 0).

(** The number of iterations of a non-empty loop from [lower] to [upper]
    in steps of [incr]. *)
Definition trip_count (lower upper incr : Z) : Z :=
  if 0 <? incr then (upper - lower) / incr + 1
  else (lower - upper) / (- incr) + 1.

(** A loop over 32-bit values that runs at least once, and whose span
    [upper - lower] is itself a signed 32-bit value unless the increment is
    1 or -1. *)
Definition well_formed_loop (lower upper incr : Z) : Prop :=
  is_i32 lower /\ is_i32 upper /\ is_i32 incr /\ incr <> 0
  /\ (0 < incr -> lower <= upper) /\ (incr < 0 -> upper <= lower)
  /\ (incr = 1 \/ incr = -1 \/ -2147483648 < upper - lower < 2147483648).

(** The balanced blocks: with [small] iterations per thread and [extras]
    left over, thread [t] starts at iteration number [block_start] and
    runs [block_size] iterations. *)
Definition block_start (small extras t : Z) : Z := t * small + Z.min t extras.
Definition block_size (small extras t : Z) : Z :=
  small + (if t <? extras then 1 else 0).





End OpenMP.

(** ** Concrete inputs used by the examples below *)

Module Samples.
Import Syscalls.

Definition quiet_reply (r : Z) : HostReply :=
  mkReply r [] (mkSockaddr 0 []) 0 0 0 0.

(** A host whose every call returns [r] and writes nothing. *)
Definition host_returning (r : Z) : Host := fun _ _ => quiet_reply r.

(** A memory of [pages] pages (at most [maxp]) whose first bytes are [l]. *)
Definition memory_of (pages maxp : Z) (l : list Z) : Memory :=
  mkMemory pages maxp (fun a => if a <? 0 then 0 else nth (Z.to_nat a) l 0).

Definition u32_bytes (v : Z) : list Z :=
  [v mod 256; v / 256 mod 256; v / 65536 mod 256; v / 16777216 mod 256].

(** [bind(99, 0xFFFFFFF0, 16)]: the argument words lie at address 0, the
    descriptor is not registered, the address pointer is outside memory. *)
Definition bind_args : list Z :=
  u32_bytes 99 ++ u32_bytes 4294967280 ++ u32_bytes 16.

Definition st_bind : State := mkState (memory_of 1 1 bind_args) ∅ 0 [].

(** The guest strings ["/etc/hosts"] and ["/etc/passwd"] at address 0. *)
Definition st_hosts : State :=
  mkState (memory_of 1 1 (bytes_of_string "/etc/hosts" ++ [0])) ∅ 0 [].

Definition st_passwd : State :=
  mkState (memory_of 1 1 (bytes_of_string "/etc/passwd" ++ [0])) ∅ 0 [].

(** Two pages of memory, with room for [maxp] pages. *)
Definition st_pages (maxp : Z) : State :=
  mkState (memory_of 2 maxp []) ∅ 0 [].

(** Two shadow [iovec] entries at address 0, naming the bytes "hi" at 16
    and "!" at 18. *)
Definition st_iov : State :=
  mkState
    (memory_of 1 1
       (u32_bytes 16 ++ u32_bytes 2 ++ u32_bytes 18 ++ u32_bytes 1
        ++ [104; 105; 33]))
    ∅ 0 [].

End Samples.

Module OmpSamples.
Import OpenMP Samples.

(** A thread [tid] of a team of [N], in local mode, with a free reduction
    lock. *)
Definition omp_state (N tid : Z) (m : Memory) : State :=
  mkState (mkLevel N (-1) None) tid m 1 EmptyString 0 [].

(** The loop variables of a static loop: [lastIter] at address 0, [lower]
    at 4, [upper] at 8, [stride] at 12. *)
Definition loop_memory (lower upper : Z) : Memory :=
  memory_of 1 1
    (u32_bytes 0 ++ u32_bytes (to_u32 lower) ++ u32_bytes (to_u32 upper)
     ++ u32_bytes 0).

(** The loop variables after [__kmpc_for_static_init_4], as
    (lastIter, lower, upper, stride); [None] if the call did not return. *)
Definition static_init_result
  (N tid schedule lower upper incr chunk : Z) : option (Z * Z * Z * Z) :=
  match __kmpc_for_static_init_4 0 0 schedule 0 4 8 12 incr chunk
          (omp_state N tid (loop_memory lower upper)) with
  | (Ok _, st') =>
      let m := defaultMemory st' in
      Some (load_i32 m 0, load_i32 m 4, load_i32 m 8, load_i32 m 12)
  | (Throw _, _) => None
  end.

(** A distributed fork of three calls with identifiers 100, 101 and 102,
    of which the second returns a non-zero code (scenario S6) or, in the
    second environment, does not answer in time. *)
Definition three_calls (second : WaitResult) : Env :=
  mkEnv (fun _ => 3) 7 (fun _ => 0) (fun t => 100 + t) 1000
    (fun id _ => if id =? 101 then second else FunctionResult 0)
    (fun _ => 42) (fun _ => 0) (fun f => Ok f).

(** One shared variable: its address, 8, is the only argument word, at
    address 0. *)
Definition st_fork : State :=
  mkState (mkLevel 1 (-1) None) 0 (memory_of 1 1 (u32_bytes 8)) 2 EmptyString 0 [].


End OmpSamples.

(** ** Further notions for the syscall bridge *)

Module SyscallsMore.
Import Syscalls Samples.

(** The native [sockaddr] that [getSockAddr] builds from the guest bytes
    at [p]. *)
Definition sockaddr_at (m : Memory) (p : Z) : sockaddr :=
  mkSockaddr (load_u16 m p) (load_bytes m (p + 2) 14).

(** A native [sockaddr]: a 16-bit family and fourteen bytes. *)
Definition sockaddr_wf (a : sockaddr) : Prop :=
  0 <= sa_family a < 65536
  /\ length (sa_data a) = 14%nat
  /\ Forall (fun b => 0 <= b < 256) (sa_data a).

(** The pages [mmap] asks for. *)
Definition pages_for (length : Z) : Z :=
  (length + numBytesPerPage - 1) / numBytesPerPage.

(** The eight sub-operations of [socketcall] that reach the kernel. *)
Definition kernel_socketcalls : list Z :=
  [sc_socket; sc_bind; sc_connect; sc_getsockname;
   sc_send; sc_recv; sc_sendto; sc_recvfrom].

(** A host whose calls all return [r] and that fills buffers with [buf],
    socket addresses with [a] and address lengths with [len]. *)
Definition host_filling (r : Z) (buf : list Z) (a : sockaddr) (len : Z) : Host :=
  fun _ _ => mkReply r buf a len 0 0 0.

(** Descriptor 5 is registered; the argument words of a socket call lie at
    address 0: descriptor 5, an address at 32, a length word at 64. *)
Definition st_socket_args : State :=
  mkState (memory_of 1 1 (u32_bytes 5 ++ u32_bytes 32 ++ u32_bytes 64))
    {[5]} 0 [].

Definition sample_sockaddr : sockaddr :=
  mkSockaddr 2 [0; 80; 127; 0; 0; 1; 0; 0; 0; 0; 0; 0; 0; 0].

End SyscallsMore.

(** ** Further intrinsics of the OpenMP runtime *)

Module OpenMPMore.
Import OpenMP Samples OmpSamples.

Definition __kmpc_push_num_threads (loc globalTid numThreads : Z)
  : Exec State unit :=
  if 0 <? numThreads then
    (fun st => (Ok tt,
                set_level (mkLevel (num_threads (thisLevel st)) numThreads
                             (reduceMutex (thisLevel st))) st))
  else ret tt.

(** [userMaxNumDevices] is a global that is never assigned. *)
Definition userMaxNumDevices : Z := 3.

Definition set_userNumDevice (d : Z) (st : State) : State :=
  mkState (thisLevel st) (thisThreadNumber st) (defaultMemory st) d
    (activeSnapshotKey st) (threadSnapshotSize st) (events st).

Definition omp_get_num_devices : Exec State Z := get userNumDevice.

Definition omp_set_default_device (defaultDeviceNumber : Z) : Exec State unit :=
  if userMaxNumDevices <? to_i32 (Z.abs defaultDeviceNumber) then ret tt
  else if defaultDeviceNumber <? 0 then
    (fun st => (Ok tt, set_userNumDevice (to_i32 (defaultDeviceNumber * -1)) st))
  else
    (fun st => (Ok tt, set_userNumDevice defaultDeviceNumber st)).

(** [thisLevel->reduceMutex.unlock()]: releasing a mutex the thread does not
    hold is undefined, as the source notes. *)
Definition reduceMutex_unlock : Exec State unit :=
  fun st =>
    match reduceMutex (thisLevel st) with
    | Some holder =>
        if holder =? thisThreadNumber st then
          (Ok tt,
           set_level (mkLevel (num_threads (thisLevel st))
                        (pushed_num_threads (thisLevel st)) None) st)
        else (Throw undefinedBehaviour, st)
    | None => (Throw undefinedBehaviour, st)
    end.

Definition endReduction : Exec State unit :=
  let* l := get thisLevel in
  if 1 <? num_threads l then reduceMutex_unlock else ret tt.

Definition __kmpc_end_reduce (loc gtid lck : Z) : Exec State unit :=
  let* devices := get userNumDevice in
  if devices =? 1 then endReduction
  else throwException
         (runtime_error "End reduce called in distributed context" None).

Definition __kmpc_end_reduce_nowait (loc gtid lck : Z) : Exec State unit :=
  let* devices := get userNumDevice in
  if devices =? 1 then endReduction
  else throwException
         (runtime_error "End reduce called in distributed context" None).

(** *** Notions used in the statements *)

(** The argument vector of the microtask run by thread [t]: its number,
    the count of shared variables, and the pointers to them. *)
Definition microtask_args (m : Memory) (argc argsPtr t : Z) : list Z :=
  t :: argc :: read_pointers m argsPtr argc.

(** The thread numbers [0 .. n). *)
Definition thread_numbers (n : Z) : list Z :=
  map Z.of_nat (seq 0 (Z.to_nat n)).

(** The sum of the codes with which the threads [first .. first + n) end. *)
Fixpoint sum_join_codes (env : Env) (first : Z) (n : nat) : Z :=
  match n with
  | O => 0
  | S n' => joinThread env first + sum_join_codes env (first + 1) n'
  end.

(** The ranges the small-trip-count branch hands out. *)
Definition small_lower (lower upper incr T t : Z) : Z :=
  if t <? T then lower + incr * t else upper + incr.
Definition small_upper (lower upper incr T t : Z) : Z :=
  if t <? T then lower + incr * t else upper.

(** The first and last value of the chunk that thread [t] runs in round
    [r] of a chunked loop: the chunks of [c] iterations go round the [N]
    threads in turn. *)
Definition chunked_lower (lower incr c N t r : Z) : Z :=
  lower + incr * (c * (r * N + t)).
Definition chunked_upper (lower incr c N t r : Z) : Z :=
  lower + incr * (c * (r * N + t) + (c - 1)).

(** The state after further calls to collaborators. *)
Definition add_events (es : list Event) (st : State) : State :=
  mkState (thisLevel st) (thisThreadNumber st) (defaultMemory st)
    (userNumDevice st) (activeSnapshotKey st) (threadSnapshotSize st)
    (events st ++ es).

(** A computation that leaves [thisLevel] as it found it, however it ends. *)
Definition keeps_level {A : Type} (c : Exec State A) : Prop :=
  forall st, thisLevel (snd (c st)) = thisLevel st.

(** Local mode, three threads ending with the codes 1, -1 and 0. *)
Definition cancelling_codes : Env :=
  mkEnv (fun _ => 3) 7 (fun _ => 0) (fun t => 100 + t) 1000
    (fun _ _ => FunctionResult 0) (fun _ => 0)
    (fun t => if t =? 0 then 1 else if t =? 1 then -1 else 0)
    (fun f => Ok f).

(** Local mode, three threads of which the last ends with code 2. *)
Definition one_failing_code : Env :=
  mkEnv (fun _ => 3) 7 (fun _ => 0) (fun t => 100 + t) 1000
    (fun _ _ => FunctionResult 0) (fun _ => 0)
    (fun t => if t =? 2 then 2 else 0) (fun f => Ok f).

Definition st_local_fork : State :=
  mkState (mkLevel 1 4 None) 0 (memory_of 1 1 (u32_bytes 8)) 1 EmptyString 0 [].

End OpenMPMore.

(* ====================================================================== *)
(** * Part II: properties                                                   *)
(* ====================================================================== *)

(** ** Fixed-width integers *)

Lemma to_u32_range (x : Z) : 0 <= to_u32 x < 4294967296.
Proof. unfold to_u32. apply Z.mod_pos_bound. lia. Qed.

Lemma to_i32_range (x : Z) : is_i32 (to_i32 x).
Proof.
  unfold is_i32, to_i32.
  pose proof (Z.mod_pos_bound (x + 2147483648) 4294967296 ltac:(lia)). lia.
Qed.

Lemma to_u32_id (x : Z) : is_u32 x -> to_u32 x = x.
Proof. unfold is_u32, to_u32. intros H. apply Z.mod_small. lia. Qed.

Lemma to_i32_id (x : Z) : is_i32 x -> to_i32 x = x.
Proof.
  unfold is_i32, to_i32. intros H.
  rewrite Z.mod_small by lia. lia.
Qed.

(** Two integers that agree modulo 2^32 have the same 32-bit images. *)
Lemma to_i32_congr (x y k : Z) : x = y + k * 4294967296 -> to_i32 x = to_i32 y.
Proof.
  intros ->. unfold to_i32.
  replace (y + k * 4294967296 + 2147483648)
    with (y + 2147483648 + k * 4294967296) by lia.
  now rewrite Z.mod_add by lia.
Qed.

Lemma to_u32_congr (x y k : Z) : x = y + k * 4294967296 -> to_u32 x = to_u32 y.
Proof. intros ->. unfold to_u32. now rewrite Z.mod_add by lia. Qed.

Lemma to_i32_eqm (x : Z) : exists k, to_i32 x = x + k * 4294967296.
Proof.
  unfold to_i32.
  exists (- ((x + 2147483648) / 4294967296)).
  pose proof (Z.div_mod (x + 2147483648) 4294967296 ltac:(lia)). lia.
Qed.

Lemma to_u32_eqm (x : Z) : exists k, to_u32 x = x + k * 4294967296.
Proof.
  unfold to_u32. exists (- (x / 4294967296)).
  pose proof (Z.div_mod x 4294967296 ltac:(lia)). lia.
Qed.

Lemma to_u32_to_i32 (x : Z) : to_u32 (to_i32 x) = to_u32 x.
Proof.
  destruct (to_i32_eqm x) as [k Hk]. now apply to_u32_congr with k.
Qed.

Lemma to_i32_to_u32 (x : Z) : to_i32 (to_u32 x) = to_i32 x.
Proof.
  destruct (to_u32_eqm x) as [k Hk]. now apply to_i32_congr with k.
Qed.

(** ** Guest memory *)

Lemma load8_range (m : Memory) (a : Z) : 0 <= load8 m a < 256.
Proof. unfold load8. apply Z.mod_pos_bound. lia. Qed.

Lemma load_u32_range (m : Memory) (a : Z) : is_u32 (load_u32 m a).
Proof.
  unfold is_u32, load_u32.
  pose proof (load8_range m a). pose proof (load8_range m (a + 1)).
  pose proof (load8_range m (a + 2)). pose proof (load8_range m (a + 3)). lia.
Qed.

Lemma load8_store8_same (m : Memory) (a v : Z) :
  load8 (store8 m a v) a = v mod 256.
Proof.
  unfold load8, store8, upd. simpl. rewrite Z.eqb_refl.
  apply Z.mod_mod. lia.
Qed.

Lemma load8_store8_other (m : Memory) (a b v : Z) :
  a <> b -> load8 (store8 m a v) b = load8 m b.
Proof.
  intros H. unfold load8, store8, upd. simpl.
  destruct (Z.eqb_spec b a); [congruence | reflexivity].
Qed.

Lemma bytes_of_u32 (x : Z) :
  0 <= x < 4294967296 ->
  x mod 256 + 256 * (x / 256 mod 256) + 65536 * (x / 65536 mod 256)
  + 16777216 * (x / 16777216 mod 256) = x.
Proof. intros H. Z.div_mod_to_equations. lia. Qed.

Lemma bytes_of_mod (v d : Z) :
  In d [1; 256; 65536; 16777216] ->
  (v / d) mod 256 = (v mod 4294967296 / d) mod 256.
Proof.
  intros Hd. simpl in Hd.
  destruct Hd as [<-|[<-|[<-|[<-|[]]]]]; Z.div_mod_to_equations; lia.
Qed.

Lemma load_u32_store32_same (m : Memory) (a v : Z) :
  load_u32 (store32 m a v) a = to_u32 v.
Proof.
  unfold load_u32, store32.
  rewrite (load8_store8_other _ (a + 3) a), (load8_store8_other _ (a + 2) a),
    (load8_store8_other _ (a + 1) a), load8_store8_same by lia.
  rewrite (load8_store8_other _ (a + 3) (a + 1)),
    (load8_store8_other _ (a + 2) (a + 1)), load8_store8_same by lia.
  rewrite (load8_store8_other _ (a + 3) (a + 2)), load8_store8_same by lia.
  rewrite load8_store8_same.
  unfold to_u32.
  rewrite (bytes_of_mod v 256), (bytes_of_mod v 65536),
    (bytes_of_mod v 16777216) by (simpl; tauto).
  replace (v mod 256) with ((v mod 4294967296) mod 256)
    by (Z.div_mod_to_equations; lia).
  apply bytes_of_u32. apply Z.mod_pos_bound. lia.
Qed.

Lemma load_u32_store32_other (m : Memory) (a b v : Z) :
  a + 4 <= b \/ b + 4 <= a ->
  load_u32 (store32 m a v) b = load_u32 m b.
Proof.
  intros H. unfold load_u32, store32.
  now rewrite !load8_store8_other by lia.
Qed.

Lemma load_i32_store32_same (m : Memory) (a v : Z) :
  load_i32 (store32 m a v) a = to_i32 v.
Proof.
  unfold load_i32. rewrite load_u32_store32_same. apply to_i32_to_u32.
Qed.

Lemma load_i32_store32_other (m : Memory) (a b v : Z) :
  a + 4 <= b \/ b + 4 <= a ->
  load_i32 (store32 m a v) b = load_i32 m b.
Proof.
  intros H. unfold load_i32. now rewrite load_u32_store32_other.
Qed.

Lemma numPages_store32 (m : Memory) (a v : Z) :
  numPages (store32 m a v) = numPages m.
Proof. reflexivity. Qed.

Lemma validRange_store32 (m : Memory) (a v off n : Z) :
  validRange (store32 m a v) off n = validRange m off n.
Proof. reflexivity. Qed.

(** ** The syscall bridge *)

Module SyscallsSpec.
Import Syscalls Samples.

(** Unfolds the plumbing of [Exec] in the goal. *)
Ltac exec_unfold :=
  unfold bind, ret, throwException, getModuleMemory, putModuleMemory,
    memoryRange, hostcall; simpl.

Lemma check_unowned (fd : Z) (st : State) :
  fd ∉ openFds st ->
  checkThreadOwnsFd fd st = (Throw calledUnimplementedIntrinsic, st).
Proof.
  intros H. unfold checkThreadOwnsFd.
  now rewrite bool_decide_eq_false_2.
Qed.

Lemma check_owned (fd : Z) (st : State) :
  fd ∈ openFds st -> checkThreadOwnsFd fd st = (Ok tt, st).
Proof.
  intros H. unfold checkThreadOwnsFd.
  now rewrite bool_decide_eq_true_2.
Qed.

Section Ownership.
Variable host : Host.
Variable st : State.

Lemma read_unowned (fd bufPtr count : Z) :
  fd ∉ openFds st ->
  __syscall_read host fd bufPtr count st
  = (Throw calledUnimplementedIntrinsic, st).
Proof.
  intros H. unfold __syscall_read, bind. now rewrite check_unowned.
Qed.

Lemma close_unowned (fd : Z) :
  fd ∉ openFds st ->
  __syscall_close host fd st = (Throw calledUnimplementedIntrinsic, st).
Proof.
  intros H. unfold __syscall_close, bind. now rewrite check_unowned.
Qed.

Lemma fcntl64_unowned (fd cmd c : Z) :
  fd ∉ openFds st ->
  __syscall_fcntl64 fd cmd c st = (Throw calledUnimplementedIntrinsic, st).
Proof.
  intros H. unfold __syscall_fcntl64, bind. now rewrite check_unowned.
Qed.

Lemma poll_unowned (fdsPtr nfds timeout : Z) :
  validRange (memory st) fdsPtr 8 = true ->
  load_i32 (memory st) fdsPtr ∉ openFds st ->
  __syscall_poll host fdsPtr nfds timeout st
  = (Throw calledUnimplementedIntrinsic, st).
Proof.
  intros Hv H. unfold __syscall_poll.
  destruct (nfds =? 1); simpl; [| reflexivity].
  exec_unfold. rewrite Hv. now rewrite check_unowned.
Qed.

Lemma connect_unowned (argsPtr : Z) :
  validRange (memory st) argsPtr 12 = true ->
  sockfd_of st argsPtr ∉ openFds st ->
  __syscall_socketcall host sc_connect argsPtr st
  = (Throw calledUnimplementedIntrinsic, st).
Proof.
  intros Hv H. unfold __syscall_socketcall, socketcall_connect. simpl.
  exec_unfold. rewrite Hv. now rewrite check_unowned.
Qed.

Lemma transfer_unowned (call argsPtr : Z) :
  In call [sc_send; sc_recv; sc_sendto; sc_recvfrom] ->
  validRange (memory st) argsPtr
    (if (call =? sc_sendto) || (call =? sc_recvfrom) then 24 else 16) = true ->
  sockfd_of st argsPtr ∉ openFds st ->
  __syscall_socketcall host call argsPtr st
  = (Throw calledUnimplementedIntrinsic, st).
Proof.
  intros Hc Hv H. simpl in Hc.
  destruct Hc as [<-|[<-|[<-|[<-|[]]]]]; simpl in Hv;
    unfold __syscall_socketcall, socketcall_transfer; simpl;
    exec_unfold; change (4 * 4) with 16; change (6 * 4) with 24;
    rewrite Hv; now rewrite check_unowned.
Qed.

Lemma getsockname_unowned (argsPtr : Z) :
  validRange (memory st) argsPtr 12 = true ->
  sockfd_of st argsPtr ∉ openFds st ->
  __syscall_socketcall host sc_getsockname argsPtr st
  = (Throw calledUnimplementedIntrinsic, st).
Proof.
  intros Hv H. unfold __syscall_socketcall, socketcall_getsockname. simpl.
  exec_unfold. rewrite Hv. now rewrite check_unowned.
Qed.

(** [bind] reaches the ownership check only once the socket address has
    been read. *)
Lemma bind_unowned (argsPtr : Z) :
  validRange (memory st) argsPtr 12 = true ->
  validRange (memory st) (to_i32 (subCallArg (memory st) argsPtr 1)) 16 = true ->
  sockfd_of st argsPtr ∉ openFds st ->
  __syscall_socketcall host sc_bind argsPtr st
  = (Throw calledUnimplementedIntrinsic, st).
Proof.
  intros Hv Ha H. unfold __syscall_socketcall, socketcall_bind. simpl.
  unfold getSockAddr. exec_unfold. rewrite Hv, Ha. now rewrite check_unowned.
Qed.

End Ownership.

(** C1 (evaluation at the failing input).  [bind] on a descriptor the thread
    does not own, with the socket-address pointer outside guest memory:
    [getSockAddr] runs before [checkThreadOwnsFd], so the call ends in the
    memory fault and not in the unimplemented-intrinsic trap; [connect],
    which checks first, ends in that trap on the same arguments.  Neither
    makes a host call. *)
Theorem C1_bind_reads_address_before_ownership_check :
  forall host : Host,
    sockfd_of st_bind 0 = 99 /\
    (99 ∉ openFds st_bind) /\
    __syscall_socketcall host sc_bind 0 st_bind
    = (Throw outOfBoundsMemoryAccess, st_bind) /\
    __syscall_socketcall host sc_connect 0 st_bind
    = (Throw calledUnimplementedIntrinsic, st_bind).
Proof.
  intros host. split; [reflexivity |]. split; [set_solver |].
  split; reflexivity.
Qed.

(** *** Opening whitelisted paths *)

Lemma strcmp_eq_cstring (m : Memory) (lit : list Z) :
  Forall (fun c => c <> 0) lit ->
  forall (p : Z) (s : list Z),
    cstring_at m p s -> (strcmp_eq m p lit = true <-> s = lit).
Proof.
  induction 1 as [| c lit Hc Hlit IH]; intros p s Hs.
  - destruct s as [| d rest]; simpl in *.
    + rewrite Hs. simpl. tauto.
    + destruct Hs as (Hd & -> & _).
      split; [| discriminate].
      intros E. apply Z.eqb_eq in E. contradiction.
  - destruct s as [| d rest]; simpl in *.
    + rewrite Hs. split; [| discriminate].
      intros E. apply andb_true_iff in E as [E _].
      apply Z.eqb_eq in E. congruence.
    + destruct Hs as (Hd & -> & Hrest).
      specialize (IH (p + 1) rest Hrest).
      rewrite andb_true_iff, Z.eqb_eq, IH.
      split; [intros [-> ->]; reflexivity | intros E; now inversion E].
Qed.

Lemma strcmp_eq_false (m : Memory) (lit : list Z) (p : Z) (s : list Z) :
  Forall (fun c => c <> 0) lit ->
  cstring_at m p s -> s <> lit -> strcmp_eq m p lit = false.
Proof.
  intros Hl Hs Hne. apply not_true_is_false. intros E.
  now apply (strcmp_eq_cstring m lit Hl p s Hs) in E.
Qed.

Lemma hosts_no_nul : Forall (fun c => c <> 0) (bytes_of_string "/etc/hosts").
Proof. repeat constructor; discriminate. Qed.

Lemma resolv_no_nul :
  Forall (fun c => c <> 0) (bytes_of_string "/etc/resolv.conf").
Proof. repeat constructor; discriminate. Qed.

(** C2 (amended).  Let [s] be the string the guest passes.  A non-zero mode
    traps.  A string that is neither ["/etc/hosts"] nor ["/etc/resolv.conf"]
    traps, with no host call and the state untouched.  For a whitelisted
    string and mode 0 the mapped host file is opened with flags 0: a
    descriptor above 0 is inserted in the registry and returned; a failed
    host open (negative result) traps and the registry is unchanged. *)
Theorem C2_open_whitelist
  (host : Host) (st : State) (pathPtr flags mode : Z) (s : list Z) :
  cstring_at (memory st) pathPtr s ->
  (mode <> 0 ->
   __syscall_open host pathPtr flags mode st
   = (Throw calledUnimplementedIntrinsic, st))
  /\ (s <> bytes_of_string "/etc/hosts" ->
      s <> bytes_of_string "/etc/resolv.conf" ->
      exists t, __syscall_open host pathPtr flags mode st = (Throw t, st))
  /\ (mode = 0 -> validRange (memory st) pathPtr 1 = true ->
      forall hostPath : string,
        (s = bytes_of_string "/etc/hosts" /\ hostPath = HOSTS_FILE)
        \/ (s = bytes_of_string "/etc/resolv.conf" /\ hostPath = RESOLV_FILE) ->
        let fd := retval (host (trace st) (host_open hostPath 0 0)) in
        let opened :=
          mkState (memory st) (openFds st) (dummyClock st)
            (trace st ++ [host_open hostPath 0 0]) in
        (0 < fd ->
         __syscall_open host pathPtr flags mode st
         = (Ok fd, set_openFds ({[fd]} ∪ openFds st) opened))
        /\ (fd < 0 ->
            __syscall_open host pathPtr flags mode st
            = (Throw calledUnimplementedIntrinsic, opened))).
Proof.
  intros Hs. split; [| split].
  - intros Hm. unfold __syscall_open.
    destruct (Z.eqb_spec mode 0); [contradiction | reflexivity].
  - intros H1 H2. unfold __syscall_open.
    destruct (mode =? 0); cbn [negb]; [| eauto].
    unfold bind, memoryRange, getModuleMemory.
    destruct (validRange (memory st) pathPtr 1); [| eauto].
    rewrite (strcmp_eq_false _ _ _ _ hosts_no_nul Hs H1).
    rewrite (strcmp_eq_false _ _ _ _ resolv_no_nul Hs H2).
    simpl. eauto.
  - intros -> Hv hostPath Hw fd opened. subst fd opened.
    unfold __syscall_open. cbn [Z.eqb negb].
    unfold bind, memoryRange, getModuleMemory. rewrite Hv.
    destruct Hw as [[-> ->] | [-> ->]].
    + rewrite (proj2 (strcmp_eq_cstring _ _ hosts_no_nul _ _ Hs) eq_refl).
      unfold hostcall, ret, throwException.
      split; intros Hfd;
        match goal with
        | |- context [0 <? ?x] => destruct (Z.ltb_spec 0 x)
        end; (reflexivity || lia).
    + rewrite (strcmp_eq_false _ _ _ _ hosts_no_nul Hs) by discriminate.
      rewrite (proj2 (strcmp_eq_cstring _ _ resolv_no_nul _ _ Hs) eq_refl).
      unfold hostcall, ret, throwException.
      split; intros Hfd;
        match goal with
        | |- context [0 <? ?x] => destruct (Z.ltb_spec 0 x)
        end; (reflexivity || lia).
Qed.

(** On the guest string ["/etc/hosts"]: a host open that yields descriptor 5
    registers and returns it; a mode of 2 traps. *)
Lemma C2_open_whitelist_witness :
  __syscall_open (host_returning 5) 0 0 0 st_hosts
  = (Ok 5, mkState (memory st_hosts) ({[5]} ∪ ∅) 0 [host_open HOSTS_FILE 0 0])
  /\ __syscall_open (host_returning 5) 0 0 2 st_hosts
     = (Throw calledUnimplementedIntrinsic, st_hosts).
Proof.
  assert (Hs : cstring_at (memory st_hosts) 0 (bytes_of_string "/etc/hosts")).
  { simpl. repeat split; try discriminate. }
  split.
  - destruct (C2_open_whitelist (host_returning 5) st_hosts 0 0 0 _ Hs)
      as (_ & _ & H).
    refine (proj1 (H eq_refl eq_refl HOSTS_FILE (or_introl (conj eq_refl eq_refl))) _).
    reflexivity.
  - destruct (C2_open_whitelist (host_returning 5) st_hosts 0 0 2 _ Hs)
      as (H & _).
    apply H. discriminate.
Defined.

(** C2 (counterexample).  The guest string is ["/etc/hosts"] and the mode is
    0, yet the call traps instead of returning a descriptor: the host open
    failed. *)
Lemma C2_open_whitelisted_may_trap :
  cstring_at (memory st_hosts) 0 (bytes_of_string "/etc/hosts")
  /\ __syscall_open (host_returning (-1)) 0 0 0 st_hosts
     = (Throw calledUnimplementedIntrinsic,
        mkState (memory st_hosts) ∅ 0 [host_open HOSTS_FILE 0 0]).
Proof.
  split; [simpl; repeat split; discriminate | reflexivity].
Qed.

(** A host open that yields descriptor 0 is treated like a failed one: the
    call traps, with the host file left open. *)
Example open_descriptor_zero_traps :
  __syscall_open (host_returning 0) 0 0 0 st_hosts
  = (Throw calledUnimplementedIntrinsic,
     mkState (memory st_hosts) ∅ 0 [host_open HOSTS_FILE 0 0]).
Proof. reflexivity. Qed.

(** *** Memory growth *)

Lemma growMemory_ok (m : Memory) (n : Z) :
  0 <= n -> 0 <= numPages m ->
  numPages m + n <= maxPages m -> numPages m + n <= maxMemoryPages ->
  fst (growMemory m n) = numPages m
  /\ numPages (snd (growMemory m n)) = numPages m + n
  /\ maxPages (snd (growMemory m n)) = maxPages m
  /\ bytes (snd (growMemory m n)) = bytes m.
Proof.
  intros Hn Hp Hmax Hlim. unfold growMemory.
  destruct (Z.eqb_spec n 0) as [-> | Hn0].
  - simpl. rewrite Z.add_0_r. tauto.
  - destruct (Z.ltb_spec (maxPages m) n); [lia |].
    destruct (Z.ltb_spec (maxPages m - n) (numPages m)); [lia |].
    destruct (Z.ltb_spec (maxMemoryPages - n) (numPages m)); [lia |].
    simpl. tauto.
Qed.

Lemma growMemory_beyond_max (m : Memory) (n : Z) :
  0 <= numPages m -> maxPages m < numPages m + n -> 0 < n ->
  growMemory m n = (-1, m).
Proof.
  intros Hp Hmax Hn. unfold growMemory.
  destruct (Z.eqb_spec n 0); [lia |].
  destruct (Z.ltb_spec (maxPages m) n); [reflexivity |].
  destruct (Z.ltb_spec (maxPages m - n) (numPages m)); [reflexivity | lia].
Qed.

(** C7 (amended).  With [n = ceil(length / 65536)]: any [fd] other than -1
    traps; with [fd = -1], and provided the [n] further pages fit under the
    memory's maximum and the 65536-page address space, the memory grows by
    exactly [n] pages, nothing else changes, no host call is made, and the
    value returned is the address of the first new page, the page count
    before the call times 65536.  [addr], [prot], [flags] and [offset] play
    no part. *)
Theorem C7_mmap_grows
  (st : State) (addr length prot flags fd offset : Z) :
  is_u32 length ->
  0 <= numPages (memory st) < 65536 ->
  let n := (length + numBytesPerPage - 1) / numBytesPerPage in
  ((n - 1) * 65536 < length <= n * 65536)
  /\ (fd <> -1 ->
      __syscall_mmap addr length prot flags fd offset st
      = (Throw calledUnimplementedIntrinsic, st))
  /\ (fd = -1 ->
      numPages (memory st) + n <= Z.min (maxPages (memory st)) maxMemoryPages ->
      exists b st',
        __syscall_mmap addr length prot flags fd offset st = (Ok b, st')
        /\ to_u32 b = numPages (memory st) * 65536
        /\ numPages (memory st') = numPages (memory st) + n
        /\ maxPages (memory st') = maxPages (memory st)
        /\ bytes (memory st') = bytes (memory st)
        /\ openFds st' = openFds st
        /\ dummyClock st' = dummyClock st
        /\ trace st' = trace st).
Proof.
  intros Hl Hp n. unfold is_u32 in Hl.
  assert (Hn : (n - 1) * 65536 < length <= n * 65536).
  { subst n. unfold numBytesPerPage. Z.div_mod_to_equations. lia. }
  split; [exact Hn |]. split.
  - intros Hfd. unfold __syscall_mmap.
    destruct (Z.eqb_spec fd (-1)); [contradiction | reflexivity].
  - intros -> Hmax. unfold __syscall_mmap. rewrite Z.eqb_refl. cbn [negb].
    fold n. unfold bind, getModuleMemory. cbv beta iota.
    destruct (growMemory_ok (memory st) n ltac:(lia) ltac:(lia)
                ltac:(lia) ltac:(lia))
      as (Hb & Hnp & Hmp & Hby).
    destruct (growMemory (memory st) n) as [base m'] eqn:Eg.
    simpl in Hb, Hnp, Hmp, Hby. subst base.
    unfold putModuleMemory, ret. simpl.
    eexists _, _. split; [reflexivity |]. simpl.
    split; [| tauto].
    rewrite to_u32_to_i32. apply to_u32_id. unfold is_u32, numBytesPerPage. lia.
Qed.

(** Scenario S3: two pages, room for four, a request of 130000 bytes. *)
Lemma C7_mmap_grows_witness :
  exists b st',
    __syscall_mmap 0 130000 0 0 (-1) 0 (st_pages 4) = (Ok b, st')
    /\ to_u32 b = 2 * 65536
    /\ numPages (memory st') = 4.
Proof.
  destruct (C7_mmap_grows (st_pages 4) 0 130000 0 0 (-1) 0) as (_ & _ & H).
  - unfold is_u32. lia.
  - simpl. lia.
  - destruct (H eq_refl) as (b & st' & E & Hb & Hn & _).
    + simpl. unfold numBytesPerPage. vm_compute. discriminate.
    + exists b, st'. repeat split; [exact E | exact Hb | exact Hn].
Defined.

(** C7 (counterexample).  Two pages, a maximum of three, [fd = -1] and a
    request of 130000 bytes (two pages): the memory does not grow and the
    value returned is not [2 * 65536]. *)
Lemma C7_mmap_beyond_max_does_not_grow :
  __syscall_mmap 0 130000 0 0 (-1) 0 (st_pages 3) = (Ok (-65536), st_pages 3)
  /\ numPages (memory (st_pages 3)) = 2.
Proof. split; reflexivity. Qed.

Lemma break_of_i32 (st : State) : to_u32 (to_i32 (break_of st)) = break_of st.
Proof.
  rewrite to_u32_to_i32. apply to_u32_id. apply to_u32_range.
Qed.

(** One [brk]: what it returns and what it leaves behind. *)
Lemma brk_step (st : State) (addr : Z) :
  is_u32 addr -> 0 <= numPages (memory st) ->
  exists b st',
    __syscall_brk addr st = (Ok b, st')
    /\ to_u32 b = break_of st
    /\ 0 <= numPages (memory st')
    /\ break_of st <= break_of st'.
Proof.
  intros Ha Hp. unfold is_u32 in Ha. unfold __syscall_brk.
  unfold bind, getModuleMemory, getMemoryNumPages.
  assert (Ht : 0 <= addr / numBytesPerPage <= 65535).
  { unfold numBytesPerPage. Z.div_mod_to_equations. lia. }
  destruct (Z.leb_spec (addr / numBytesPerPage) (numPages (memory st))) as [Hle | Hgt].
  - eexists _, _. split; [reflexivity |].
    split; [apply break_of_i32 |]. split; [exact Hp | lia].
  - unfold putModuleMemory, ret. simpl.
    eexists _, _. split; [reflexivity |].
    split; [apply break_of_i32 |].
    unfold break_of. simpl.
    set (e := addr / numBytesPerPage - numPages (memory st)).
    destruct (Z_le_gt_dec (numPages (memory st) + e) (maxPages (memory st))) as [Hm | Hm].
    + destruct (growMemory_ok (memory st) e ltac:(lia) Hp Hm
                  ltac:(unfold maxMemoryPages; lia)) as (_ & Hn & _).
      rewrite Hn. split; [lia |].
      rewrite !to_u32_id; unfold is_u32, numBytesPerPage in *; lia.
    + rewrite growMemory_beyond_max by lia. simpl. split; [exact Hp | lia].
Qed.

Lemma brk_sequence_sorted (addrs : list Z) :
  Forall is_u32 addrs ->
  forall st : State,
    0 <= numPages (memory st) ->
    StronglySorted Z.le (brk_sequence addrs st)
    /\ Forall (fun b => break_of st <= b) (brk_sequence addrs st).
Proof.
  induction 1 as [| a addrs Ha _ IH]; intros st Hp; simpl.
  - split; constructor.
  - destruct (brk_step st a Ha Hp) as (b & st' & E & Hb & Hp' & Hle).
    rewrite E. destruct (IH st' Hp') as [Hs Hall].
    assert (Hall' : Forall (fun x => break_of st <= x) (brk_sequence addrs st')).
    { eapply Forall_impl; [exact Hall |]. simpl. intros x Hx. lia. }
    split.
    + constructor; [exact Hs |]. now rewrite Hb.
    + constructor; [lia | exact Hall'].
Qed.

(** C4 (amended).  With [target = addr / 65536] and [cur] the current page
    count, [brk] returns the break before the call, [cur * 65536] as a
    32-bit address.  A target of at most [cur] changes nothing.  A larger
    target that fits under the memory's maximum grows the memory by
    [target - cur] pages; one beyond the maximum leaves the memory as it
    was.  Over any run of [brk] calls the breaks returned never decrease. *)
Theorem C4_brk_returns_old_break (st : State) (addr : Z) :
  is_u32 addr ->
  0 <= numPages (memory st) ->
  let target := addr / 65536 in
  let cur := numPages (memory st) in
  (exists b st',
     __syscall_brk addr st = (Ok b, st')
     /\ to_u32 b = to_u32 (cur * 65536)
     /\ (target <= cur -> st' = st)
     /\ (cur < target -> target <= maxPages (memory st) ->
         numPages (memory st') = cur + (target - cur))
     /\ (cur < target -> maxPages (memory st) < target ->
         numPages (memory st') = cur)
     /\ maxPages (memory st') = maxPages (memory st)
     /\ bytes (memory st') = bytes (memory st)
     /\ openFds st' = openFds st
     /\ trace st' = trace st)
  /\ (forall addrs : list Z,
        Forall is_u32 addrs ->
        StronglySorted Z.le (brk_sequence (addr :: addrs) st)).
Proof.
  intros Ha Hp target cur. split.
  - unfold __syscall_brk, bind, getModuleMemory, getMemoryNumPages.
    change (addr / numBytesPerPage) with target. fold cur.
    assert (Hret : to_u32 (to_i32 (to_u32 (cur * numBytesPerPage)))
                   = to_u32 (cur * 65536)).
    { rewrite to_u32_to_i32. apply to_u32_id. apply to_u32_range. }
    destruct (Z.leb_spec target cur) as [Hle | Hgt].
    + exists (to_i32 (to_u32 (cur * numBytesPerPage))), st.
      split; [reflexivity |]. split; [exact Hret |].
      repeat split; try reflexivity; intros; lia.
    + unfold putModuleMemory, ret. simpl.
      eexists _, _. split; [reflexivity |]. split; [exact Hret |]. simpl.
      split; [intros; lia |].
      destruct (Z_le_gt_dec target (maxPages (memory st))) as [Hm | Hm].
      * assert (Ht : target <= 65535).
        { subst target. unfold is_u32 in Ha. Z.div_mod_to_equations. lia. }
        destruct (growMemory_ok (memory st) (target - cur)
                    ltac:(lia) Hp ltac:(fold cur; lia)
                    ltac:(unfold maxMemoryPages; fold cur; lia))
          as (_ & Hn & Hx & Hb).
        repeat split; auto; intros; lia.
      * rewrite growMemory_beyond_max by (fold cur; lia). simpl.
        repeat split; auto; intros; lia.
  - intros addrs Hall.
    apply brk_sequence_sorted; [constructor; assumption | exact Hp].
Qed.

(** Four calls on a memory of two pages with room for four. *)
Lemma C4_brk_returns_old_break_witness :
  StronglySorted Z.le
    (brk_sequence [262144; 0; 196608; 655360] (st_pages 4)).
Proof.
  refine (proj2 (C4_brk_returns_old_break (st_pages 4) 262144 _ _) _ _).
  - unfold is_u32. lia.
  - simpl. lia.
  - repeat constructor; unfold is_u32; lia.
Defined.

(** C4 (counterexample).  Two pages, a maximum of four, and a target of ten
    pages, which is above the current count: the break returned is the old
    one, but the memory has not grown by the difference. *)
Lemma C4_brk_beyond_max_does_not_grow :
  655360 / 65536 = 10
  /\ numPages (memory (st_pages 4)) = 2
  /\ __syscall_brk 655360 (st_pages 4) = (Ok 131072, st_pages 4).
Proof. repeat split. Qed.

(** *** Timing *)

(** C10 (amended).  For every clock and every result address whose eight
    bytes lie in guest memory, [clock_gettime] returns 0 whatever the host
    call returned: the host is asked once, and the two words of the shadow
    [timespec] are overwritten with the truncated fields the host call left,
    also when it failed. *)
Theorem C10_clock_gettime_returns_zero
  (host : Host) (st : State) (clockId resultAddress : Z) :
  validRange (memory st) resultAddress 8 = true ->
  let r := host (trace st) (host_clock_gettime clockId) in
  exists st',
    __syscall_clock_gettime host clockId resultAddress st = (Ok 0, st')
    /\ trace st' = trace st ++ [host_clock_gettime clockId]
    /\ load_i32 (memory st') resultAddress = to_i32 (out_sec r)
    /\ load_i32 (memory st') (resultAddress + 4) = to_i32 (out_nsec r)
    /\ openFds st' = openFds st.
Proof.
  intros Hv r. unfold __syscall_clock_gettime. exec_unfold. rewrite Hv.
  eexists. split; [reflexivity |]. simpl. split; [reflexivity |].
  split; [| split; [| reflexivity]].
  - rewrite load_i32_store32_other by lia.
    rewrite load_i32_store32_same. subst r.
    apply to_i32_id, to_i32_range.
  - rewrite load_i32_store32_same. subst r.
    apply to_i32_id, to_i32_range.
Qed.

(** A failing host clock: the return value is still 0. *)
Lemma C10_clock_gettime_returns_zero_witness :
  exists st',
    __syscall_clock_gettime (host_returning (-1)) 7 16 (st_pages 4)
    = (Ok 0, st')
    /\ trace st' = [host_clock_gettime 7].
Proof.
  destruct (C10_clock_gettime_returns_zero (host_returning (-1))
              (st_pages 4) 7 16 eq_refl) as (st' & E & Ht & _).
  exists st'. split; [exact E | exact Ht].
Defined.

(** C10 (counterexample).  A result address outside guest memory: the call
    does not return 0, it faults before the host clock is read. *)
Lemma C10_clock_gettime_bad_address_traps :
  __syscall_clock_gettime (host_returning 0) 0 (-8) (st_pages 4)
  = (Throw outOfBoundsMemoryAccess, st_pages 4).
Proof. reflexivity. Qed.

(** *** Gathered writes *)




End SyscallsSpec.

(** ** The OpenMP runtime *)

Module OpenMPSpec.
Import OpenMP OmpSamples.

(** *** Reductions *)

(** C6 (amended).  [__kmpc_reduce] returns 1 for every team.  For a team of
    more than one thread the method is the critical block and, the lock
    being free, the caller holds [reduceMutex] on return.  For a team of one
    the method is the empty block: the lock is not touched, and the value
    returned is 1 all the same. *)
Theorem C6_reduce_returns_one
  (st : State) (loc gtid num_vars reduce_size reduce_data reduce_func lck : Z) :
  (num_threads (thisLevel st) <> 1 ->
   reduceMutex (thisLevel st) = None ->
   determineReductionMethod (thisLevel st) = kmp.critical_reduce_block
   /\ exists st',
       __kmpc_reduce loc gtid num_vars reduce_size reduce_data reduce_func lck st
       = (Ok 1, st')
       /\ reduceMutex (thisLevel st') = Some (thisThreadNumber st)
       /\ num_threads (thisLevel st') = num_threads (thisLevel st)
       /\ defaultMemory st' = defaultMemory st)
  /\ (num_threads (thisLevel st) = 1 ->
      determineReductionMethod (thisLevel st) = kmp.empty_reduce_block
      /\ __kmpc_reduce loc gtid num_vars reduce_size reduce_data reduce_func lck st
         = (Ok 1, st)).
Proof.
  unfold __kmpc_reduce, startReduction, determineReductionMethod, bind, get.
  split.
  - intros HN Hfree.
    destruct (Z.eqb_spec (num_threads (thisLevel st)) 1); [contradiction |].
    split; [reflexivity |].
    unfold reduceMutex_lock, ret. rewrite Hfree.
    eexists. split; [reflexivity |]. simpl. auto.
  - intros HN. rewrite HN. simpl. auto.
Qed.

(** Thread 2 of a team of four takes the lock; a team of one does not. *)
Lemma C6_reduce_returns_one_witness :
  (exists st',
      __kmpc_reduce 0 0 1 4 0 0 0 (omp_state 4 2 (loop_memory 0 9)) = (Ok 1, st')
      /\ reduceMutex (thisLevel st') = Some 2)
  /\ __kmpc_reduce 0 0 1 4 0 0 0 (omp_state 1 0 (loop_memory 0 9))
     = (Ok 1, omp_state 1 0 (loop_memory 0 9)).
Proof.
  split.
  - destruct (C6_reduce_returns_one (omp_state 4 2 (loop_memory 0 9))
                0 0 1 4 0 0 0) as [H _].
    destruct H as (_ & st' & E & Hm & _).
    + simpl. discriminate.
    + reflexivity.
    + exists st'. split; [exact E | exact Hm].
  - destruct (C6_reduce_returns_one (omp_state 1 0 (loop_memory 0 9))
                0 0 1 4 0 0 0) as [_ H].
    apply H. reflexivity.
Defined.

(** C6 (counterexample).  A team of one: the method is the empty block and
    the value returned is 1, not 0. *)
Lemma C6_reduce_solo_team_returns_one :
  determineReductionMethod (thisLevel (omp_state 1 0 (loop_memory 0 9)))
  = kmp.empty_reduce_block
  /\ fst (__kmpc_reduce 0 0 1 4 0 0 0 (omp_state 1 0 (loop_memory 0 9))) = Ok 1
  /\ fst (__kmpc_reduce 0 0 1 4 0 0 0 (omp_state 1 0 (loop_memory 0 9))) <> Ok 0.
Proof. repeat split. discriminate. Qed.

(** *** Static loops *)

Ltac omp_unfold :=
  unfold bind, ret, throwException, get, rd, wr, memoryRef; simpl.

Lemma to_i32_succ (x : Z) : to_i32 (to_i32 x + 1) = to_i32 (x + 1).
Proof.
  destruct (to_i32_eqm x) as [k Hk]. apply to_i32_congr with k. lia.
Qed.

Lemma to_i32_opp (x : Z) : to_i32 (- to_i32 x) = to_i32 (- x).
Proof.
  destruct (to_i32_eqm x) as [k Hk]. apply to_i32_congr with (- k). lia.
Qed.

(** C8 (amended).  In a team of one, whatever the schedule, the chunk and
    the increment, the call returns at once having set [lastIter] to 1 and
    [stride] to [upper - lower + 1] when [incr > 0] and to
    [- (lower - upper + 1)] otherwise (in 32-bit arithmetic); [lower] and
    [upper] keep their values. *)
Theorem C8_single_thread_static_init
  (st : State)
  (loc gtid schedule lastIterPtr lowerPtr upperPtr stridePtr incr chunk : Z) :
  num_threads (thisLevel st) = 1 ->
  loop_variables (defaultMemory st) lastIterPtr lowerPtr upperPtr stridePtr ->
  let lower := load_i32 (defaultMemory st) lowerPtr in
  let upper := load_i32 (defaultMemory st) upperPtr in
  exists st',
    __kmpc_for_static_init_4 loc gtid schedule lastIterPtr lowerPtr upperPtr
      stridePtr incr chunk st = (Ok tt, st')
    /\ load_i32 (defaultMemory st') lastIterPtr = 1
    /\ load_i32 (defaultMemory st') stridePtr
       = (if 0 <? incr then to_i32 (upper - lower + 1)
          else to_i32 (- (lower - upper + 1)))
    /\ load_i32 (defaultMemory st') lowerPtr = lower
    /\ load_i32 (defaultMemory st') upperPtr = upper.
Proof.
  intros HN (V1 & V2 & V3 & V4 & A12 & A13 & A14 & A23 & A24 & A34) lower upper.
  unfold apart in *.
  unfold __kmpc_for_static_init_4. omp_unfold.
  rewrite V1, V2, V3, V4, HN. simpl.
  eexists. split; [reflexivity |]. simpl.
  rewrite (load_i32_store32_other _ lastIterPtr upperPtr) by lia.
  rewrite (load_i32_store32_other _ lastIterPtr lowerPtr) by lia.
  fold lower upper.
  repeat split.
  - rewrite load_i32_store32_other by lia. apply load_i32_store32_same.
  - rewrite load_i32_store32_same.
    destruct (0 <? incr).
    + rewrite to_i32_succ. apply to_i32_id, to_i32_range.
    + rewrite to_i32_succ, to_i32_opp. apply to_i32_id, to_i32_range.
  - rewrite !load_i32_store32_other by lia. reflexivity.
  - rewrite !load_i32_store32_other by lia. reflexivity.
Qed.

(** A team of one on the loop from 0 to 9, under a schedule the runtime
    does not implement. *)
Lemma C8_single_thread_static_init_witness :
  exists st',
    __kmpc_for_static_init_4 0 0 77 0 4 8 12 1 0
      (omp_state 1 0 (loop_memory 0 9)) = (Ok tt, st')
    /\ load_i32 (defaultMemory st') 0 = 1
    /\ load_i32 (defaultMemory st') 12 = 10.
Proof.
  destruct (C8_single_thread_static_init (omp_state 1 0 (loop_memory 0 9))
              0 0 77 0 4 8 12 1 0) as (st' & E & H1 & H2 & _).
  - reflexivity.
  - unfold loop_variables, apart. simpl. repeat split; lia.
  - exists st'. repeat split; [exact E | exact H1 | exact H2].
Defined.

(** C8 (counterexample).  A team of one running the loop from 10 down to 1:
    the stride set is -10, where [(upper - lower + 1) * sign(incr)] is 8. *)
Lemma C8_single_thread_negative_increment :
  static_init_result 1 0 kmp.sch_static 10 1 (-1) 0 = Some (1, 10, 1, -10)
  /\ (1 - 10 + 1) * Z.sgn (-1) = 8.
Proof. split; reflexivity. Qed.

(** *** Distributed fork *)


Section Fork.
Variable env : Env.
Variables argc argsPtr : Z.



End Fork.




(** *** Static balanced schedule *)

(** Scenario S5: three threads share the loop from 0 to 9. *)
Example static_balanced_S5 :
  static_init_result 3 0 kmp.sch_static 0 9 1 0 = Some (0, 0, 3, 10)
  /\ static_init_result 3 1 kmp.sch_static 0 9 1 0 = Some (0, 4, 6, 10)
  /\ static_init_result 3 2 kmp.sch_static 0 9 1 0 = Some (1, 7, 9, 10).
Proof. repeat split. Qed.

(** C3 (evaluation at the failing input).  Two threads share the loop
    [for (i = -2^31; i <= 2^30; i += 2)], of 1610612737 iterations.  The
    difference [upper - lower] does not fit a signed 32-bit integer, the
    signed division yields the trip count 3758096385, and the ranges handed
    out are [-2^31 .. 1610612736] for thread 0, which runs past the upper
    bound (1073741826 is not an iteration of the loop but is one of thread
    0), and [1610612738 .. 2^30] for thread 1, which is empty. *)
Theorem C3_static_balanced_overflow :
  tripCount (-2147483648) 1073741824 2 = Ok 3758096385
  /\ (1073741824 - -2147483648) / 2 + 1 = 1610612737
  /\ static_init_result 2 0 kmp.sch_static (-2147483648) 1073741824 2 0
     = Some (0, -2147483648, 1610612736, -536870911)
  /\ static_init_result 2 1 kmp.sch_static (-2147483648) 1073741824 2 0
     = Some (1, 1610612738, 1073741824, -536870911)
  /\ iterates (-2147483648) 1073741824 2 1073741826 = false
  /\ iterates (-2147483648) 1610612736 2 1073741826 = true
  /\ (forall i : Z, iterates 1610612738 1073741824 2 i = false).
Proof.
  repeat split.
  intros i. unfold iterates. simpl.
  destruct (Z.leb_spec 1610612738 i); [| reflexivity].
  destruct (Z.leb_spec i 1073741824); [lia | reflexivity].
Qed.

(** The trip count the code computes is the number of iterations, as long
    as the span of the loop is representable. *)
Lemma tripCount_exact (lower upper incr : Z) :
  well_formed_loop lower upper incr ->
  trip_count lower upper incr <= 4294967295 ->
  tripCount lower upper incr = Ok (trip_count lower upper incr).
Proof.
  unfold well_formed_loop, is_i32, trip_count, tripCount.
  intros (Hl & Hu & Hi & H0 & Hpos & Hneg & Hspan) HT.
  destruct (Z.eqb_spec incr 1) as [-> | H1].
  { simpl in *. rewrite Z.div_1_r in *.
    rewrite to_i32_succ, to_u32_to_i32, to_u32_id; [reflexivity |].
    unfold is_u32. lia. }
  destruct (Z.eqb_spec incr (-1)) as [-> | Hm1].
  { simpl in *. rewrite Z.div_1_r in *.
    rewrite to_i32_succ, to_u32_to_i32, to_u32_id; [reflexivity |].
    unfold is_u32. lia. }
  assert (Hs : -2147483648 < upper - lower < 2147483648) by lia.
  destruct (Z.ltb_spec 0 incr) as [Hp | Hn].
  - rewrite (to_i32_id (upper - lower)) by (unfold is_i32; lia).
    rewrite Z.quot_div_nonneg by lia.
    assert (Hq : 0 <= (upper - lower) / incr <= 1073741824).
    { split; [apply Z.div_pos; lia |].
      apply Z.div_le_upper_bound; lia. }
    rewrite to_u32_to_i32, to_u32_id; [reflexivity | unfold is_u32; lia].
  - destruct (Z.eqb_spec incr 0); [contradiction |].
    destruct (Z.eq_dec incr (-2147483648)) as [-> | Hmin].
    + rewrite (to_i32_id (lower - upper)) by (unfold is_i32; lia).
      change (to_i32 (- -2147483648)) with (- (2147483648)).
      rewrite Z.quot_opp_r by lia.
      rewrite Z.quot_small by lia.
      change (- -2147483648) with 2147483648.
      rewrite Z.div_small by lia. reflexivity.
    + rewrite (to_i32_id (lower - upper)) by (unfold is_i32; lia).
      rewrite (to_i32_id (- incr)) by (unfold is_i32; lia).
      rewrite Z.quot_div_nonneg by lia.
      assert (Hq : 0 <= (lower - upper) / - incr <= 1073741824).
      { split; [apply Z.div_pos; lia |].
        apply Z.div_le_upper_bound; lia. }
      rewrite to_u32_to_i32, to_u32_id; [reflexivity | unfold is_u32; lia].
Qed.

(** Arithmetic of the balanced blocks of [T] iterations over [N] threads. *)
Section Blocks.
Variables T N : Z.
Hypothesis HN : 0 < N.
Hypothesis HT : N <= T.
Local Abbreviation small := (T / N).
Local Abbreviation extras := (T mod N).

Lemma block_division : 1 <= small /\ 0 <= extras < N /\ T = N * small + extras.
Proof.
  pose proof (Z.div_mod T N ltac:(lia)).
  pose proof (Z.mod_pos_bound T N HN).
  assert (1 <= T / N) by (apply Z.div_le_lower_bound; lia).
  repeat split; lia.
Qed.

Lemma block_start_zero : block_start small extras 0 = 0.
Proof.
  destruct block_division as (_ & He & _). unfold block_start. lia.
Qed.

Lemma block_start_next (t : Z) :
  block_start small extras (t + 1)
  = block_start small extras t + block_size small extras t.
Proof.
  unfold block_start, block_size.
  destruct (Z.ltb_spec t extras); lia.
Qed.

Lemma block_start_all : block_start small extras N = T.
Proof.
  destruct block_division as (_ & He & HTeq). unfold block_start.
  rewrite Z.min_r by lia. lia.
Qed.

Lemma block_size_bounds (t : Z) :
  small <= block_size small extras t <= small + 1.
Proof. unfold block_size. destruct (t <? extras); lia. Qed.

Lemma block_start_mono (t t' : Z) :
  t <= t' -> block_start small extras t <= block_start small extras t'.
Proof.
  destruct block_division as (Hs & _ & _). intros Hle.
  unfold block_start. nia.
Qed.

Lemma block_end_le (t : Z) :
  0 <= t < N ->
  block_start small extras t + block_size small extras t <= T.
Proof.
  intros Ht. rewrite <- block_start_next.
  pose proof (block_start_mono (t + 1) N ltac:(lia)) as Hm.
  rewrite block_start_all in Hm. exact Hm.
Qed.

(** Every iteration number lies in the block of some thread ... *)
Lemma block_find (k : Z) :
  0 <= k < T ->
  exists t, 0 <= t < N
            /\ block_start small extras t <= k
               < block_start small extras t + block_size small extras t.
Proof.
  intros Hk.
  assert (H : forall n : nat,
             k < block_start small extras (Z.of_nat n) ->
             exists t, 0 <= t < Z.of_nat n
                       /\ block_start small extras t <= k
                          < block_start small extras (t + 1)).
  { induction n as [| n IH]; intros Hlt.
    - change (Z.of_nat 0) with 0 in Hlt. rewrite block_start_zero in Hlt. lia.
    - destruct (Z_lt_le_dec k (block_start small extras (Z.of_nat n))) as [Hb | Hb].
      + destruct (IH Hb) as (t & Ht & Hin). exists t. split; [lia | exact Hin].
      + exists (Z.of_nat n). split; [lia |]. split; [exact Hb |].
        now replace (Z.of_nat n + 1) with (Z.of_nat (S n)) by lia. }
  destruct (H (Z.to_nat N)) as (t & Ht & Hin).
  - rewrite Z2Nat.id by lia. rewrite block_start_all. lia.
  - exists t. rewrite <- block_start_next. split; [lia | exact Hin].
Qed.

(** ... and of one thread only. *)
Lemma block_unique (k t t' : Z) :
  block_start small extras t <= k
  < block_start small extras t + block_size small extras t ->
  block_start small extras t' <= k
  < block_start small extras t' + block_size small extras t' ->
  t = t'.
Proof.
  rewrite <- !block_start_next. intros H1 H2.
  destruct (Z.lt_trichotomy t t') as [Hlt | [Heq | Hgt]]; [| exact Heq |].
  - pose proof (block_start_mono (t + 1) t' ltac:(lia)). lia.
  - pose proof (block_start_mono (t' + 1) t ltac:(lia)). lia.
Qed.

End Blocks.


Lemma iteration_in_range (lower upper incr k : Z) :
  well_formed_loop lower upper incr ->
  0 <= k < trip_count lower upper incr ->
  is_i32 (lower + incr * k)
  /\ (0 < incr -> lower <= lower + incr * k <= upper)
  /\ (incr < 0 -> upper <= lower + incr * k <= lower).
Proof.
  unfold well_formed_loop, is_i32, trip_count.
  intros (Hl & Hu & Hi & H0 & Hpos & Hneg & _) Hk.
  destruct (Z.ltb_spec 0 incr) as [Hp | Hn].
  - pose proof (Z.mul_div_le (upper - lower) incr Hp).
    assert (incr * k <= incr * ((upper - lower) / incr)) by nia.
    repeat split; try lia; nia.
  - assert (Hp : 0 < - incr) by lia.
    pose proof (Z.mul_div_le (lower - upper) (- incr) Hp).
    assert (- incr * k <= - incr * ((lower - upper) / - incr)) by nia.
    repeat split; try lia; nia.
Qed.

Lemma static_balanced_thread
  (st : State)
  (loc gtid lastIterPtr lowerPtr upperPtr stridePtr incr chunk : Z) :
  let m := defaultMemory st in
  let lower := load_i32 m lowerPtr in
  let upper := load_i32 m upperPtr in
  let N := num_threads (thisLevel st) in
  let tid := thisThreadNumber st in
  let T := trip_count lower upper incr in
  let small := T / N in
  let extras := T mod N in
  loop_variables m lastIterPtr lowerPtr upperPtr stridePtr ->
  well_formed_loop lower upper incr ->
  2 <= N <= 2147483647 ->
  0 <= tid < N ->
  N <= T <= 4294967295 ->
  exists st',
    __kmpc_for_static_init_4 loc gtid kmp.sch_static lastIterPtr lowerPtr
      upperPtr stridePtr incr chunk st = (Ok tt, st')
    /\ load_i32 (defaultMemory st') lowerPtr
       = lower + incr * block_start small extras tid
    /\ load_i32 (defaultMemory st') upperPtr
       = lower + incr * (block_start small extras tid
                         + block_size small extras tid - 1)
    /\ load_i32 (defaultMemory st') lastIterPtr
       = (if tid =? N - 1 then 1 else 0)
    /\ load_u32 (defaultMemory st') stridePtr = T.
Proof.
  intros m lower upper N tid T small extras
    (V1 & V2 & V3 & V4 & A12 & A13 & A14 & A23 & A24 & A34) Hwf HN Htid HT.
  unfold apart in *.
  unfold __kmpc_for_static_init_4.
  unfold bind, get, memoryRef, rd, wr, ret, throwException.
  cbv beta iota. fold m. rewrite V1. cbv beta iota. fold m. rewrite V2.
  cbv beta iota. fold m. rewrite V3. cbv beta iota. fold m. rewrite V4.
  cbv beta iota. fold N tid.
  destruct (Z.eqb_spec N 1) as [? | _]; [lia |].
  fold m lower upper. rewrite (tripCount_exact lower upper incr Hwf) by (fold T; lia).
  fold T. change (kmp.sch_static =? kmp.sch_static_chunked) with false.
  change (kmp.sch_static =? kmp.sch_static) with true. cbv beta iota.
  rewrite (to_u32_id N) by (unfold is_u32; lia).
  rewrite (to_u32_id tid) by (unfold is_u32; lia).
  destruct (Z.ltb_spec T N) as [? | _]; [lia |].
  destruct (Z.eqb_spec N 0) as [? | _]; [lia |].
  fold small extras.
  destruct (block_division T N ltac:(lia) ltac:(lia)) as (Hsmall & Hextras & HTeq).
  fold small extras in Hsmall, Hextras, HTeq.
  pose proof (block_end_le T N ltac:(lia) ltac:(lia) tid Htid) as Hend.
  pose proof (block_size_bounds T N tid) as Hsize.
  pose proof (block_start_mono T N ltac:(lia) ltac:(lia) 0 tid ltac:(lia)) as Hstart.
  rewrite (block_start_zero T N ltac:(lia) ltac:(lia)) in Hstart.
  fold small extras in Hend, Hsize, Hstart.
  set (start := block_start small extras tid) in *.
  set (size := block_size small extras tid) in *.
  assert (Hmin : tid * small + (if tid <? extras then tid else extras) = start).
  { subst start. unfold block_start. destruct (Z.ltb_spec tid extras); lia. }
  rewrite Hmin.
  destruct (iteration_in_range lower upper incr start Hwf ltac:(fold T; lia))
    as (HLr & _).
  destruct (iteration_in_range lower upper incr (start + size - 1) Hwf
              ltac:(fold T; lia)) as (HUr & _).
  eexists. split; [reflexivity |].
  cbn [defaultMemory set_memory]. fold m. fold lower.
  rewrite (load_i32_store32_same m lowerPtr).
  rewrite (to_i32_id (lower + incr * start)) by exact HLr.
  rewrite (to_i32_id (lower + incr * start)) by exact HLr.
  assert (HU : lower + incr * start + small * incr
               - (if tid <? extras then 0 else incr)
               = lower + incr * (start + size - 1)).
  { subst size. unfold block_size. destruct (tid <? extras); lia. }
  rewrite HU.
  repeat split.
  - rewrite !load_i32_store32_other by lia. rewrite load_i32_store32_same.
    now apply to_i32_id.
  - rewrite !load_i32_store32_other by lia. rewrite load_i32_store32_same.
    rewrite (to_i32_id (lower + incr * (start + size - 1))) by exact HUr.
    now apply to_i32_id.
  - rewrite !load_i32_store32_other by lia. rewrite load_i32_store32_same.
    rewrite (to_i32_id (N - 1)) by (unfold is_i32; lia).
    destruct (tid =? N - 1); reflexivity.
  - rewrite load_u32_store32_same. rewrite to_u32_to_i32.
    apply to_u32_id. unfold is_u32. lia.
Qed.

(** The values a loop between two points of the grid [l + incr * j] takes. *)
Lemma iterates_grid (l incr a c i : Z) :
  incr <> 0 ->
  (iterates (l + incr * a) (l + incr * c) incr i = true
   <-> exists j, a <= j <= c /\ i = l + incr * j).
Proof.
  intros H0. unfold iterates.
  destruct (Z.ltb_spec 0 incr) as [Hp | Hn].
  - rewrite !andb_true_iff, !Z.leb_le, Z.eqb_eq. split.
    + intros [[H1 H2] H3].
      apply Z.mod_divide in H3; [| lia]. destruct H3 as [q Hq].
      exists (a + q). split; [nia | lia].
    + intros (j & Hj & ->). repeat split; try nia.
      replace (l + incr * j - (l + incr * a)) with ((j - a) * incr) by lia.
      apply Z.mod_mul. lia.
  - rewrite !andb_true_iff, !Z.leb_le, Z.eqb_eq. split.
    + intros [[H1 H2] H3].
      apply Z.mod_divide in H3; [| lia]. destruct H3 as [q Hq].
      exists (a + q). split; [nia | lia].
    + intros (j & Hj & ->). repeat split; try nia.
      replace (l + incr * a - (l + incr * j)) with ((j - a) * - incr) by lia.
      apply Z.mod_mul. lia.
Qed.

(** The values of the whole loop are the first [trip_count] grid points. *)
Lemma iterates_loop (lower upper incr i : Z) :
  well_formed_loop lower upper incr ->
  (iterates lower upper incr i = true
   <-> exists k, 0 <= k < trip_count lower upper incr /\ i = lower + incr * k).
Proof.
  intros Hwf. split.
  - destruct Hwf as (_ & _ & _ & H0 & Hpos & Hneg & _).
    unfold iterates, trip_count.
    destruct (Z.ltb_spec 0 incr) as [Hp | Hn].
    + rewrite !andb_true_iff, !Z.leb_le, Z.eqb_eq. intros [[H1 H2] H3].
      apply Z.mod_divide in H3; [| lia]. destruct H3 as [q Hq].
      exists q. split; [| lia].
      assert (q <= (upper - lower) / incr)
        by (apply Z.div_le_lower_bound; nia).
      nia.
    + rewrite !andb_true_iff, !Z.leb_le, Z.eqb_eq. intros [[H1 H2] H3].
      apply Z.mod_divide in H3; [| lia]. destruct H3 as [q Hq].
      exists q. split; [| lia].
      assert (q <= (lower - upper) / - incr)
        by (apply Z.div_le_lower_bound; nia).
      nia.
  - intros (k & Hk & ->).
    destruct (iteration_in_range lower upper incr k Hwf Hk) as (_ & Hp & Hn).
    destruct Hwf as (_ & _ & _ & H0 & _).
    unfold iterates.
    destruct (Z.ltb_spec 0 incr) as [Hpos | Hneg].
    + rewrite !andb_true_iff, !Z.leb_le, Z.eqb_eq. repeat split; try lia.
      replace (lower + incr * k - lower) with (k * incr) by lia.
      apply Z.mod_mul. lia.
    + rewrite !andb_true_iff, !Z.leb_le, Z.eqb_eq. repeat split; try lia.
      replace (lower - (lower + incr * k)) with (k * - incr) by lia.
      apply Z.mod_mul. lia.
Qed.

(** X13.  The balanced static schedule on a well-formed loop: every thread of the
    team gets a range; each iteration of the loop belongs to the range of
    exactly one thread, the ranges contain nothing else, their lengths are
    [small] or [small + 1], the last thread alone has [lastIter] set, and
    [stride] is the trip count. *)
Lemma static_balanced_partition
  (st : State)
  (loc gtid lastIterPtr lowerPtr upperPtr stridePtr incr chunk : Z) :
  let m := defaultMemory st in
  let lower := load_i32 m lowerPtr in
  let upper := load_i32 m upperPtr in
  let N := num_threads (thisLevel st) in
  let T := trip_count lower upper incr in
  loop_variables m lastIterPtr lowerPtr upperPtr stridePtr ->
  well_formed_loop lower upper incr ->
  2 <= N <= 2147483647 ->
  N <= T <= 4294967295 ->
  exists lo up : Z -> Z,
    (forall t, 0 <= t < N ->
       exists st',
         __kmpc_for_static_init_4 loc gtid kmp.sch_static lastIterPtr lowerPtr
           upperPtr stridePtr incr chunk (as_thread t st) = (Ok tt, st')
         /\ load_i32 (defaultMemory st') lowerPtr = lo t
         /\ load_i32 (defaultMemory st') upperPtr = up t
         /\ load_i32 (defaultMemory st') lastIterPtr
            = (if t =? N - 1 then 1 else 0)
         /\ load_u32 (defaultMemory st') stridePtr = T)
    /\ (forall i, iterates lower upper incr i = true ->
          exists t, 0 <= t < N
                    /\ iterates (lo t) (up t) incr i = true
                    /\ forall t', 0 <= t' < N ->
                                  iterates (lo t') (up t') incr i = true ->
                                  t' = t)
    /\ (forall t i, 0 <= t < N -> iterates (lo t) (up t) incr i = true ->
                    iterates lower upper incr i = true)
    /\ (forall t, 0 <= t < N ->
                  T / N <= (up t - lo t) / incr + 1 <= T / N + 1).
Proof.
  intros m lower upper N T Hvars Hwf HN HT.
  set (small := T / N). set (extras := T mod N).
  pose (start := block_start small extras).
  pose (size := block_size small extras).
  assert (H0 : incr <> 0) by (destruct Hwf as (_ & _ & _ & H & _); exact H).
  assert (Hblock : forall t, 0 <= t < N ->
                     0 <= start t /\ 1 <= size t /\ start t + size t <= T).
  { intros t Ht. subst start size small extras.
    pose proof (block_division T N ltac:(lia) ltac:(lia)) as (Hs & _ & _).
    pose proof (block_size_bounds T N t).
    pose proof (block_end_le T N ltac:(lia) ltac:(lia) t Ht).
    pose proof (block_start_mono T N ltac:(lia) ltac:(lia) 0 t ltac:(lia)) as Hm.
    rewrite (block_start_zero T N ltac:(lia) ltac:(lia)) in Hm. lia. }
  exists (fun t => lower + incr * start t),
         (fun t => lower + incr * (start t + size t - 1)).
  split; [| split; [| split]].
  - intros t Ht.
    exact (static_balanced_thread (as_thread t st) loc gtid lastIterPtr
             lowerPtr upperPtr stridePtr incr chunk Hvars Hwf HN Ht HT).
  - intros i Hi.
    apply (iterates_loop lower upper incr i Hwf) in Hi.
    destruct Hi as (k & Hk & ->). fold T in Hk.
    destruct (block_find T N ltac:(lia) ltac:(lia) k Hk) as (t & Ht & Hin).
    fold small extras in Hin. fold (start t) (size t) in Hin.
    exists t. split; [exact Ht |]. split.
    + apply iterates_grid; [exact H0 |]. exists k. split; [lia | reflexivity].
    + intros t' Ht' Hi'.
      apply iterates_grid in Hi'; [| exact H0].
      destruct Hi' as (j & Hj & Hij).
      assert (j = k) by nia. subst j.
      apply (block_unique T N ltac:(lia) ltac:(lia) k t' t).
      * fold small extras. fold (start t') (size t'). lia.
      * exact Hin.
  - intros t i Ht Hi.
    apply iterates_grid in Hi; [| exact H0].
    destruct Hi as (j & Hj & ->).
    apply (iterates_loop lower upper incr _ Hwf).
    exists j. split; [| reflexivity].
    destruct (Hblock t Ht) as (? & ? & ?). fold T. lia.
  - intros t Ht.
    replace (lower + incr * (start t + size t - 1) - (lower + incr * start t))
      with ((size t - 1) * incr) by lia.
    rewrite Z.div_mul by exact H0.
    pose proof (block_size_bounds T N t) as Hb.
    fold small extras in Hb. fold (size t) in Hb. fold small. lia.
Qed.

End OpenMPSpec.

(* ====================================================================== *)
(** * Part III: further properties of the code                              *)
(* ====================================================================== *)

(** ** Byte ranges of guest memory *)

Lemma load8_store_bytes_outside (l : list Z) :
  forall (m : Memory) (a x : Z),
    x < a \/ a + Z.of_nat (length l) <= x ->
    load8 (store_bytes m a l) x = load8 m x.
Proof.
  induction l as [| b l IH]; intros m a x Hx; [reflexivity |].
  cbn [store_bytes]. cbn [length] in Hx.
  rewrite IH by lia. apply load8_store8_other. lia.
Qed.

Lemma load_bytes_store_bytes_same (l : list Z) :
  forall (m : Memory) (a : Z),
    load_bytes (store_bytes m a l) a (length l) = map (fun b => b mod 256) l.
Proof.
  induction l as [| b l IH]; intros m a; [reflexivity |].
  cbn [store_bytes length load_bytes map]. f_equal.
  - rewrite load8_store_bytes_outside by lia. apply load8_store8_same.
  - apply IH.
Qed.

Lemma load_bytes_ext (n : nat) :
  forall (m m' : Memory) (a : Z),
    (forall x, a <= x < a + Z.of_nat n -> load8 m' x = load8 m x) ->
    load_bytes m' a n = load_bytes m a n.
Proof.
  induction n as [| n IH]; intros m m' a H; [reflexivity |].
  cbn [load_bytes]. f_equal.
  - apply H. lia.
  - apply IH. intros x Hx. apply H. lia.
Qed.

Lemma map_mod_bytes (l : list Z) :
  Forall (fun b => 0 <= b < 256) l -> map (fun b => b mod 256) l = l.
Proof.
  induction 1 as [| b l Hb _ IH]; [reflexivity |].
  cbn [map]. rewrite IH. f_equal. apply Z.mod_small. exact Hb.
Qed.

Lemma load8_store32_outside (m : Memory) (a v x : Z) :
  x < a \/ a + 4 <= x -> load8 (store32 m a v) x = load8 m x.
Proof.
  intros H. unfold store32. now rewrite !load8_store8_other by lia.
Qed.

Lemma load8_store16_outside (m : Memory) (a v x : Z) :
  x < a \/ a + 2 <= x -> load8 (store16 m a v) x = load8 m x.
Proof.
  intros H. unfold store16. now rewrite !load8_store8_other by lia.
Qed.

Lemma load_u16_store16_same (m : Memory) (a v : Z) :
  load_u16 (store16 m a v) a = v mod 65536.
Proof.
  unfold load_u16, store16.
  rewrite (load8_store8_other _ (a + 1) a) by lia.
  rewrite !load8_store8_same.
  Z.div_mod_to_equations. lia.
Qed.

Lemma validRange_store_bytes (l : list Z) :
  forall (m : Memory) (a off n : Z),
    validRange (store_bytes m a l) off n = validRange m off n.
Proof.
  induction l as [| b l IH]; intros m a off n; [reflexivity |].
  cbn [store_bytes]. now rewrite IH.
Qed.

Lemma numPages_store_bytes (l : list Z) :
  forall (m : Memory) (a : Z), numPages (store_bytes m a l) = numPages m.
Proof.
  induction l as [| b l IH]; intros m a; [reflexivity |].
  cbn [store_bytes]. now rewrite IH.
Qed.

(** ** The syscall bridge, continued *)

Module SyscallsExtra.
Import Syscalls Samples SyscallsMore.

Ltac exec_names :=
  unfold bind, ret, throwException, getModuleMemory, putModuleMemory,
    memoryRange, hostcall.

(** *** Files *)

(** X1.  Whatever the guest passes, [open] makes at most one host call, and
    that call opens one of the two mapped host files with flags 0 and mode
    0: the guest's flags never reach the host.  Guest memory is not
    written.  A call that returns yields a descriptor above 0 that has just
    been registered; a call that traps leaves the registry as it was. *)
Theorem open_only_reads_mapped_files
  (host : Host) (st st' : State) (pathPtr flags mode : Z) (r : Res Z) :
  __syscall_open host pathPtr flags mode st = (r, st') ->
  memory st' = memory st
  /\ (trace st' = trace st
      \/ trace st' = trace st ++ [host_open HOSTS_FILE 0 0]
      \/ trace st' = trace st ++ [host_open RESOLV_FILE 0 0])
  /\ match r with
     | Ok fd => 0 < fd /\ openFds st' = {[fd]} ∪ openFds st
                /\ trace st' <> trace st
     | Throw _ => openFds st' = openFds st
     end.
Proof.
  unfold __syscall_open.
  destruct (mode =? 0); cbn [negb];
    [| intros [= <- <-]; auto].
  unfold bind, memoryRange, getModuleMemory.
  destruct (validRange (memory st) pathPtr 1);
    [| intros [= <- <-]; auto].
  assert (Hne : forall (l : list HostCall) (c : HostCall), l ++ [c] <> l).
  { intros l c H. apply (f_equal (@length HostCall)) in H.
    rewrite length_app in H. simpl in H. lia. }
  destruct (strcmp_eq (memory st) pathPtr (bytes_of_string "/etc/hosts"));
    [| destruct (strcmp_eq (memory st) pathPtr
                   (bytes_of_string "/etc/resolv.conf"))];
    unfold hostcall, ret, throwException; cbv beta iota;
    try match goal with
        | |- context [0 <? ?x] => destruct (Z.ltb_spec 0 x)
        end;
    intros [= <- <-]; cbn [memory trace openFds set_openFds];
    repeat split; auto; lia.
Qed.

Lemma open_only_reads_mapped_files_witness :
  memory (snd (__syscall_open (host_returning 5) 0 66 0 st_hosts))
  = memory st_hosts
  /\ trace (snd (__syscall_open (host_returning 5) 0 66 0 st_hosts))
     = [host_open HOSTS_FILE 0 0].
Proof.
  destruct (open_only_reads_mapped_files (host_returning 5) st_hosts
              (snd (__syscall_open (host_returning 5) 0 66 0 st_hosts))
              0 66 0
              (fst (__syscall_open (host_returning 5) 0 66 0 st_hosts))
              eq_refl) as (Hm & _ & _).
  split; [exact Hm | reflexivity].
Defined.

Lemma open_registers (host : Host) (st st' : State) (pathPtr flags mode fd : Z) :
  __syscall_open host pathPtr flags mode st = (Ok fd, st') ->
  fd ∈ openFds st'.
Proof.
  unfold __syscall_open.
  destruct (mode =? 0); cbn [negb]; [| discriminate].
  unfold bind, memoryRange, getModuleMemory.
  destruct (validRange (memory st) pathPtr 1); [| discriminate].
  destruct (strcmp_eq (memory st) pathPtr (bytes_of_string "/etc/hosts"));
    [| destruct (strcmp_eq (memory st) pathPtr
                   (bytes_of_string "/etc/resolv.conf"))];
    unfold hostcall, ret, throwException; cbv beta iota;
    try match goal with
        | |- context [0 <? ?x] => destruct (0 <? x)
        end;
    intros [= <- <-]; cbn [openFds set_openFds]; set_solver.
Qed.

Lemma removed_gone (fds : gset Z) (fd : Z) : fd ∉ fds ∖ {[fd]}.
Proof.
  intros H. apply elem_of_difference in H as [_ H].
  apply H. now apply elem_of_singleton.
Qed.

Lemma removed_others (fds : gset Z) (fd fd' : Z) :
  fd' ∈ fds ∖ {[fd]} <-> fd' ∈ fds /\ fd' <> fd.
Proof. rewrite elem_of_difference, elem_of_singleton. tauto. Qed.

Lemma close_owned (host : Host) (st : State) (fd : Z) :
  fd ∈ openFds st ->
  __syscall_close host fd st
  = (Ok 0, mkState (memory st) (openFds st ∖ {[fd]}) (dummyClock st)
             (trace st ++ [host_close fd])).
Proof.
  intros H. unfold __syscall_close, bind.
  rewrite (SyscallsSpec.check_owned fd st H). reflexivity.
Qed.

(** X2.  A descriptor obtained from [open] can be closed, which returns 0
    and tells the host to close it; from then on the thread no longer owns
    it, and a [read] on it traps without reaching the host. *)
Theorem open_close_then_read_traps
  (host : Host) (st st1 : State) (pathPtr flags mode fd bufPtr count : Z) :
  __syscall_open host pathPtr flags mode st = (Ok fd, st1) ->
  exists st2,
    __syscall_close host fd st1 = (Ok 0, st2)
    /\ trace st2 = trace st1 ++ [host_close fd]
    /\ (fd ∉ openFds st2)
    /\ __syscall_read host fd bufPtr count st2
       = (Throw calledUnimplementedIntrinsic, st2).
Proof.
  intros Hopen. apply open_registers in Hopen.
  rewrite (close_owned host st1 fd Hopen).
  eexists. split; [reflexivity |]. split; [reflexivity |].
  split; [apply removed_gone |].
  apply SyscallsSpec.read_unowned. apply removed_gone.
Qed.

Lemma open_close_then_read_traps_witness :
  exists st2,
    __syscall_close (host_returning 5) 5
      (snd (__syscall_open (host_returning 5) 0 0 0 st_hosts)) = (Ok 0, st2)
    /\ __syscall_read (host_returning 5) 5 16 16 st2
       = (Throw calledUnimplementedIntrinsic, st2).
Proof.
  destruct (open_close_then_read_traps (host_returning 5) st_hosts
              (snd (__syscall_open (host_returning 5) 0 0 0 st_hosts))
              0 0 0 5 16 16 eq_refl) as (st2 & Hc & _ & _ & Hr).
  exists st2. split; [exact Hc | exact Hr].
Defined.

(** X3.  [close] on a descriptor the thread owns returns 0 whatever the
    host's [close] returns, removes that descriptor from the registry and
    no other, and leaves guest memory alone; closing it a second time
    traps. *)
Theorem close_removes_exactly_one
  (host : Host) (st : State) (fd : Z) :
  fd ∈ openFds st ->
  exists st',
    __syscall_close host fd st = (Ok 0, st')
    /\ (forall fd' : Z, fd' ∈ openFds st' <-> fd' ∈ openFds st /\ fd' <> fd)
    /\ memory st' = memory st
    /\ trace st' = trace st ++ [host_close fd]
    /\ __syscall_close host fd st' = (Throw calledUnimplementedIntrinsic, st').
Proof.
  intros H. rewrite (close_owned host st fd H).
  eexists. split; [reflexivity |]. cbn [openFds memory trace].
  split; [intros fd'; apply removed_others |]. split; [reflexivity |].
  split; [reflexivity |].
  apply SyscallsSpec.close_unowned. apply removed_gone.
Qed.

Lemma close_removes_exactly_one_witness :
  exists st',
    __syscall_close (host_returning (-1)) 5 st_socket_args = (Ok 0, st')
    /\ trace st' = [host_close 5].
Proof.
  destruct (close_removes_exactly_one (host_returning (-1)) st_socket_args 5)
    as (st' & E & _ & _ & Ht & _).
  - set_solver.
  - exists st'. split; [exact E | exact Ht].
Defined.

(** *** Sockets *)

(** X4.  [socket] returns what the host's [socket] returned and registers
    that value as a descriptor of the thread, also when it is the -1 of a
    failed call; the value then passes the ownership check, so that a
    [close] on it reaches the host. *)
Theorem socket_registers_its_result
  (host : Host) (st : State) (argsPtr : Z) :
  validRange (memory st) argsPtr 12 = true ->
  let m := memory st in
  let call := host_socket (subCallArg m argsPtr 0) (subCallArg m argsPtr 1)
                (subCallArg m argsPtr 2) in
  let sock := to_i32 (retval (host (trace st) call)) in
  exists st',
    __syscall_socketcall host sc_socket argsPtr st = (Ok sock, st')
    /\ openFds st' = {[sock]} ∪ openFds st
    /\ memory st' = memory st
    /\ trace st' = trace st ++ [call]
    /\ exists st'',
        __syscall_close host sock st' = (Ok 0, st'')
        /\ trace st'' = trace st' ++ [host_close sock].
Proof.
  intros Hv m call sock.
  unfold __syscall_socketcall, socketcall_socket. cbn [Z.eqb sc_socket Pos.eqb].
  exec_names. rewrite Hv. cbv beta iota. fold m call sock.
  eexists. split; [reflexivity |]. cbn [openFds memory trace set_openFds].
  repeat split.
  rewrite close_owned.
  - eexists. split; reflexivity.
  - cbn [openFds]. apply elem_of_union_l. now apply elem_of_singleton.
Qed.

(** A failed [socket]: -1 is returned, registered, and accepted by [close]. *)
Lemma socket_registers_its_result_witness :
  exists st',
    __syscall_socketcall (host_returning (-1)) sc_socket 0 st_socket_args
    = (Ok (-1), st')
    /\ openFds st' = {[-1]} ∪ {[5]}
    /\ fst (__syscall_close (host_returning (-1)) (-1) st') = Ok 0.
Proof.
  destruct (socket_registers_its_result (host_returning (-1)) st_socket_args 0
              eq_refl) as (st' & E & Hf & _ & _ & st'' & Hc & _).
  exists st'. split; [exact E |]. split; [exact Hf |].
  change (to_i32 (retval (host_returning (-1) (trace st_socket_args)
            (host_socket (subCallArg (memory st_socket_args) 0 0)
               (subCallArg (memory st_socket_args) 0 1)
               (subCallArg (memory st_socket_args) 0 2))))) with (-1) in Hc.
  now rewrite Hc.
Defined.

(** X5.  A [socketcall] whose sub-operation is not one of the eight passed
    to the kernel never reads guest memory, never calls the host and never
    changes the state: [listen] and [accept] trap, every other number,
    known or not, returns 0. *)
Theorem socketcall_without_kernel_call
  (host : Host) (st : State) (call argsPtr : Z) :
  ~ In call kernel_socketcalls ->
  __syscall_socketcall host call argsPtr st
  = (if (call =? sc_accept) || (call =? sc_listen)
     then Throw calledUnimplementedIntrinsic else Ok 0,
     st).
Proof.
  intros Hn. unfold kernel_socketcalls in Hn. cbn [In] in Hn.
  unfold __syscall_socketcall.
  destruct (Z.eqb_spec call sc_socket); [intuition congruence |].
  destruct (Z.eqb_spec call sc_connect); [intuition congruence |].
  destruct (Z.eqb_spec call sc_recv); [intuition congruence |].
  destruct (Z.eqb_spec call sc_recvfrom); [intuition congruence |].
  destruct (Z.eqb_spec call sc_sendto); [intuition congruence |].
  destruct (Z.eqb_spec call sc_send); [intuition congruence |].
  destruct (Z.eqb_spec call sc_bind); [intuition congruence |].
  destruct (Z.eqb_spec call sc_getsockname); [intuition congruence |].
  cbn [orb].
  destruct ((call =? sc_getpeername) || (call =? sc_socketpair)
            || (call =? sc_shutdown) || (call =? sc_setsockopt)
            || (call =? sc_getsockopt) || (call =? sc_sendmsg)
            || (call =? sc_recvmsg) || (call =? sc_accept4)
            || (call =? sc_recvmmsg) || (call =? sc_sendmmsg)) eqn:Estub.
  - assert (Hna : (call =? sc_accept) || (call =? sc_listen) = false).
    { apply orb_false_iff. split; apply Z.eqb_neq; intros ->;
        vm_compute in Estub; discriminate. }
    now rewrite Hna.
  - destruct ((call =? sc_accept) || (call =? sc_listen)); reflexivity.
Qed.

Lemma socketcall_without_kernel_call_witness :
  __syscall_socketcall (host_returning 0) sc_listen 0 st_socket_args
  = (Throw calledUnimplementedIntrinsic, st_socket_args)
  /\ __syscall_socketcall (host_returning 0) 99 0 st_socket_args
     = (Ok 0, st_socket_args).
Proof.
  split.
  - refine (socketcall_without_kernel_call (host_returning 0) st_socket_args
              sc_listen 0 _).
    vm_compute. intuition discriminate.
  - refine (socketcall_without_kernel_call (host_returning 0) st_socket_args
              99 0 _).
    vm_compute. intuition discriminate.
Defined.

(** X6.  [connect] on a descriptor the thread owns makes one host call,
    with the socket address copied from guest memory and the native
    address size, and hands the host's result back unchanged, failures
    included; guest memory and the registry are not touched. *)
Theorem connect_is_transparent
  (host : Host) (st : State) (argsPtr : Z) :
  let m := memory st in
  let sockfd := to_i32 (subCallArg m argsPtr 0) in
  let addrPtr := to_i32 (subCallArg m argsPtr 1) in
  let call := host_connect sockfd (sockaddr_at m addrPtr) 16 in
  validRange m argsPtr 12 = true ->
  sockfd ∈ openFds st ->
  validRange m addrPtr 16 = true ->
  __syscall_socketcall host sc_connect argsPtr st
  = (Ok (retval (host (trace st) call)),
     mkState m (openFds st) (dummyClock st) (trace st ++ [call])).
Proof.
  intros m sockfd addrPtr call Hv Hown Ha.
  unfold __syscall_socketcall, socketcall_connect.
  change (sc_connect =? sc_socket) with false.
  change (sc_connect =? sc_connect) with true. cbv beta iota.
  unfold bind at 1. unfold memoryRange at 1. fold m. rewrite Hv.
  unfold bind at 1. unfold getModuleMemory at 1. cbv beta iota.
  fold m sockfd addrPtr.
  unfold bind at 1. rewrite (SyscallsSpec.check_owned sockfd st Hown).
  unfold getSockAddr. exec_names. fold m. rewrite Ha. reflexivity.
Qed.

(** A connection the host refuses: the guest sees the host's -1. *)
Lemma connect_is_transparent_witness :
  fst (__syscall_socketcall (host_returning (-1)) sc_connect 0 st_socket_args)
  = Ok (-1).
Proof.
  rewrite (connect_is_transparent (host_returning (-1)) st_socket_args 0).
  - reflexivity.
  - reflexivity.
  - vm_compute. reflexivity.
  - reflexivity.
Defined.

Lemma sockaddr_at_stored (m : Memory) (p : Z) (a : sockaddr) :
  sockaddr_wf a ->
  sockaddr_at
    (store_bytes (store16 m p (sa_family a)) (p + 2) (firstn 14 (sa_data a))) p
  = a.
Proof.
  intros (Hf & Hlen & Hb). destruct a as [fam data]. cbn [sa_family sa_data] in *.
  rewrite firstn_all2 by lia.
  unfold sockaddr_at. f_equal.
  - unfold load_u16. rewrite !load8_store_bytes_outside by lia.
    fold (load_u16 (store16 m p fam) p). rewrite load_u16_store16_same.
    apply Z.mod_small. exact Hf.
  - change 14%nat with (length data) at 1 || rewrite <- Hlen.
    rewrite load_bytes_store_bytes_same. now apply map_mod_bytes.
Qed.

(** X7.  A native socket address written to guest memory with
    [setSockAddr] is read back unchanged by [getSockAddr]; the write stays
    within the sixteen bytes at the pointer. *)
Theorem sockaddr_write_then_read
  (st : State) (a : sockaddr) (p : Z) :
  validRange (memory st) p 16 = true ->
  sockaddr_wf a ->
  exists st',
    setSockAddr a p st = (Ok tt, st')
    /\ getSockAddr p st' = (Ok a, st')
    /\ (forall x : Z, x < p \/ p + 16 <= x ->
                      load8 (memory st') x = load8 (memory st) x)
    /\ openFds st' = openFds st
    /\ trace st' = trace st.
Proof.
  intros Hv Hwf.
  unfold setSockAddr. exec_names. rewrite Hv. cbv beta iota.
  eexists. split; [reflexivity |].
  unfold getSockAddr. exec_names. cbn [memory set_memory openFds trace].
  rewrite validRange_store_bytes. change (validRange (store16 (memory st) p
    (sa_family a)) p 16) with (validRange (memory st) p 16).
  rewrite Hv. cbv beta iota. cbn [memory].
  split; [| split; [| split; reflexivity]].
  - f_equal. f_equal. apply (sockaddr_at_stored (memory st) p a Hwf).
  - intros x Hx.
    destruct Hwf as (_ & Hlen & _).
    rewrite load8_store_bytes_outside
      by (rewrite length_firstn; lia).
    apply load8_store16_outside. lia.
Qed.

Lemma sockaddr_write_then_read_witness :
  exists st',
    setSockAddr sample_sockaddr 32 st_socket_args = (Ok tt, st')
    /\ getSockAddr 32 st' = (Ok sample_sockaddr, st').
Proof.
  destruct (sockaddr_write_then_read st_socket_args sample_sockaddr 32)
    as (st' & Hs & Hg & _).
  - reflexivity.
  - unfold sockaddr_wf, sample_sockaddr. cbn [sa_family sa_data].
    split; [lia |]. split; [reflexivity |]. repeat constructor; lia.
  - exists st'. split; [exact Hs | exact Hg].
Defined.

(** X8.  [getsockname] on a descriptor the thread owns asks the host once,
    passing the socket address found in guest memory, and writes the
    host's answer back: afterwards the guest's sixteen bytes hold the
    address the host filled in and the guest's length word holds the
    length it reported; the host's return value is returned.  (The length
    word must not overlap the address.) *)
Theorem getsockname_writes_back
  (host : Host) (st : State) (argsPtr : Z) :
  let m := memory st in
  let sockfd := to_i32 (subCallArg m argsPtr 0) in
  let addrPtr := to_i32 (subCallArg m argsPtr 1) in
  let addrLenPtr := to_i32 (subCallArg m argsPtr 2) in
  let call := host_getsockname sockfd (sockaddr_at m addrPtr) 16 in
  let reply := host (trace st) call in
  validRange m argsPtr 12 = true ->
  sockfd ∈ openFds st ->
  validRange m addrPtr 16 = true ->
  validRange m addrLenPtr 4 = true ->
  addrLenPtr + 4 <= addrPtr \/ addrPtr + 16 <= addrLenPtr ->
  sockaddr_wf (out_addr reply) ->
  exists st',
    __syscall_socketcall host sc_getsockname argsPtr st
    = (Ok (retval reply), st')
    /\ sockaddr_at (memory st') addrPtr = out_addr reply
    /\ load_u32 (memory st') addrLenPtr = to_u32 (out_len reply)
    /\ trace st' = trace st ++ [call]
    /\ openFds st' = openFds st.
Proof.
  intros m sockfd addrPtr addrLenPtr call reply Hv Hown Ha Hl Hdis Hwf.
  unfold __syscall_socketcall, socketcall_getsockname.
  change (sc_getsockname =? sc_socket) with false.
  change (sc_getsockname =? sc_connect) with false.
  change ((sc_getsockname =? sc_recv) || (sc_getsockname =? sc_recvfrom)
          || (sc_getsockname =? sc_sendto) || (sc_getsockname =? sc_send))
    with false.
  change (sc_getsockname =? sc_bind) with false.
  change (sc_getsockname =? sc_getsockname) with true. cbv beta iota.
  unfold bind at 1. unfold memoryRange at 1. fold m. rewrite Hv.
  unfold bind at 1. unfold getModuleMemory at 1. cbv beta iota.
  fold m sockfd addrPtr addrLenPtr.
  unfold bind at 1. rewrite (SyscallsSpec.check_owned sockfd st Hown).
  unfold getSockAddr, setSockAddr, setSockLen. exec_names.
  fold m. rewrite Ha. cbv beta iota. cbn [memory]. fold m. rewrite Ha.
  cbv beta iota. cbn [memory set_memory].
  rewrite validRange_store_bytes.
  change (validRange (store16 m addrPtr (sa_family (out_addr (host (trace st)
            (host_getsockname sockfd
               (mkSockaddr (load_u16 m addrPtr) (load_bytes m (addrPtr + 2) 14))
               sizeof_sockaddr))))) addrLenPtr 4)
    with (validRange m addrLenPtr 4).
  rewrite Hl. cbv beta iota.
  eexists. split; [reflexivity |].
  cbn [memory set_memory trace openFds].
  split; [| split; [| split; reflexivity]].
  - etransitivity;
      [| apply (sockaddr_at_stored m addrPtr (out_addr reply) Hwf)].
    unfold sockaddr_at. f_equal.
    + unfold load_u16. now rewrite !load8_store32_outside by lia.
    + apply load_bytes_ext. intros x Hx.
      apply load8_store32_outside. lia.
  - apply load_u32_store32_same.
Qed.

Lemma getsockname_writes_back_witness :
  exists st',
    __syscall_socketcall (host_filling 0 [] sample_sockaddr 16)
      sc_getsockname 0 st_socket_args = (Ok 0, st')
    /\ sockaddr_at (memory st') 32 = sample_sockaddr
    /\ load_u32 (memory st') 64 = 16.
Proof.
  destruct (getsockname_writes_back (host_filling 0 [] sample_sockaddr 16)
              st_socket_args 0)
    as (st' & E & Ha & Hl & _).
  - reflexivity.
  - vm_compute. reflexivity.
  - reflexivity.
  - reflexivity.
  - vm_compute. right. discriminate.
  - unfold sockaddr_wf. cbn. split; [lia |]. split; [reflexivity |].
    repeat constructor; lia.
  - exists st'. split; [exact E |]. split; [exact Ha | exact Hl].
Defined.

(** *** Reads and writes *)

Lemma gather_iovec_fault (m : Memory) (iov : Z) (n : nat) :
  forall (i : Z) (t : Trap),
    gather_iovec m iov i n = Throw t -> t = outOfBoundsMemoryAccess.
Proof.
  induction n as [| n IH]; intros i t; cbn [gather_iovec]; [discriminate |].
  destruct (validRange m (to_u32 (iov + i * 8)) 4); cbn [negb];
    [| now intros [= <-]].
  destruct (validRange m (to_u32 (iov + i * 8 + 4)) 4); cbn [negb];
    [| now intros [= <-]].
  destruct (validRange m _ _); cbn [negb]; [| now intros [= <-]].
  destruct (gather_iovec m iov (i + 1) n) eqn:E; [discriminate |].
  intros [= <-]. now apply (IH (i + 1)).
Qed.

Lemma gather_iovec_length (m : Memory) (iov : Z) (n : nat) :
  forall (i : Z) (slices : list (list Z)),
    gather_iovec m iov i n = Ok slices -> length slices = n.
Proof.
  induction n as [| n IH]; intros i slices; cbn [gather_iovec].
  - now intros [= <-].
  - destruct (validRange m (to_u32 (iov + i * 8)) 4); cbn [negb];
      [| discriminate].
    destruct (validRange m (to_u32 (iov + i * 8 + 4)) 4); cbn [negb];
      [| discriminate].
    destruct (validRange m _ _); cbn [negb]; [| discriminate].
    destruct (gather_iovec m iov (i + 1) n) as [rest | t] eqn:E;
      [| discriminate].
    intros [= <-]. cbn [length]. f_equal. now apply (IH (i + 1)).
Qed.

(** X9.  [writev] with a count that is not negative and a native array
    that fits what is left of the host stack is all or nothing, whatever
    the guest's words are: it either faults on an entry or a byte range
    outside guest memory, having called nothing and changed nothing, or
    makes exactly one host call, a [writev] on the host's standard output
    of [iovcnt] byte ranges.  It never writes guest memory and never
    touches the registry. *)
Theorem writev_all_or_nothing
  (host : Host) (hostStack : Z) (st : State) (fd iov iovcnt : Z) :
  0 <= iovcnt < 2147483648 ->
  sizeof_iovec * iovcnt <= hostStack ->
  (__syscall_writev host hostStack fd iov iovcnt st
   = (Throw outOfBoundsMemoryAccess, st))
  \/ (exists slices : list (list Z),
        let call := host_writev STDOUT_FILENO slices in
        length slices = Z.to_nat iovcnt
        /\ __syscall_writev host hostStack fd iov iovcnt st
           = (Ok (to_i32 (retval (host (trace st) call))),
              mkState (memory st) (openFds st) (dummyClock st)
                (trace st ++ [call]))).
Proof.
  intros Hc Hfit.
  unfold __syscall_writev, alloca_iovec, bind, getModuleMemory.
  destruct (Z.ltb_spec iovcnt 0) as [? | _]; [lia |].
  destruct (Z.ltb_spec hostStack (sizeof_iovec * iovcnt)) as [? | _]; [lia |].
  cbn [orb]. unfold ret.
  rewrite to_u32_id by (unfold is_u32; lia).
  destruct (gather_iovec (memory st) iov 0 (Z.to_nat iovcnt))
    as [slices | t] eqn:E.
  - right. exists slices. split; [| reflexivity].
    now apply gather_iovec_length in E.
  - left. apply gather_iovec_fault in E. subst t. reflexivity.
Qed.

(** Two entries of which the second lies outside the one page of guest
    memory: nothing is written to the host. *)
Lemma writev_all_or_nothing_witness :
  __syscall_writev (host_returning 3) 8388608 7 65528 2 st_iov
  = (Throw outOfBoundsMemoryAccess, st_iov).
Proof.
  destruct (writev_all_or_nothing (host_returning 3) 8388608 st_iov 7 65528 2)
    as [E | (slices & _ & E)].
  - lia.
  - unfold sizeof_iovec. lia.
  - exact E.
  - discriminate E.
Defined.

(** X10.  [read] on a descriptor the thread owns, into a buffer inside
    guest memory, asks the host for [count] bytes once, returns the host's
    result, and stores the bytes the host delivered at the start of the
    buffer; no guest byte outside the buffer changes, and the registry is
    as before. *)
Theorem read_fills_the_buffer
  (host : Host) (st : State) (fd bufPtr count : Z) :
  let reply := host (trace st) (host_read fd count) in
  let data := firstn (Z.to_nat count) (out_buf reply) in
  fd ∈ openFds st ->
  validRange (memory st) bufPtr count = true ->
  Forall (fun b => 0 <= b < 256) data ->
  exists st',
    __syscall_read host fd bufPtr count st = (Ok (to_i32 (retval reply)), st')
    /\ load_bytes (memory st') bufPtr (length data) = data
    /\ (forall x : Z, x < bufPtr \/ bufPtr + count <= x ->
                      load8 (memory st') x = load8 (memory st) x)
    /\ trace st' = trace st ++ [host_read fd count]
    /\ openFds st' = openFds st.
Proof.
  intros reply data Hown Hv Hb.
  unfold __syscall_read. unfold bind at 1.
  rewrite (SyscallsSpec.check_owned fd st Hown).
  exec_names. rewrite Hv. cbv beta iota. fold reply. fold data.
  eexists. split; [reflexivity |]. cbn [memory set_memory trace openFds].
  split; [| split; [| split; reflexivity]].
  - rewrite load_bytes_store_bytes_same. now apply map_mod_bytes.
  - intros x Hx. apply load8_store_bytes_outside.
    assert (Hc : 0 <= count).
    { unfold validRange in Hv. apply andb_true_iff in Hv as [Hv _].
      apply andb_true_iff in Hv as [_ Hv]. now apply Z.leb_le. }
    assert (Z.of_nat (length data) <= count).
    { subst data. rewrite length_firstn. lia. }
    lia.
Qed.

Lemma read_fills_the_buffer_witness :
  exists st',
    __syscall_read (host_filling 2 [104; 105; 33] sample_sockaddr 0) 5 100 2
      st_socket_args = (Ok 2, st')
    /\ load_bytes (memory st') 100 2 = [104; 105].
Proof.
  destruct (read_fills_the_buffer
              (host_filling 2 [104; 105; 33] sample_sockaddr 0)
              st_socket_args 5 100 2)
    as (st' & E & Hd & _).
  - vm_compute. reflexivity.
  - reflexivity.
  - repeat constructor; lia.
  - exists st'. split; [exact E | exact Hd].
Defined.

(** *** Memory *)

Lemma growMemory_grows (m : Memory) (n : Z) :
  0 <= n ->
  numPages m <= numPages (snd (growMemory m n))
  /\ maxPages (snd (growMemory m n)) = maxPages m
  /\ bytes (snd (growMemory m n)) = bytes m.
Proof.
  intros Hn. unfold growMemory.
  destruct (n =? 0); [cbn; repeat split; try reflexivity; lia |].
  destruct ((maxPages m <? n) || (maxPages m - n <? numPages m)
            || (maxMemoryPages - n <? numPages m));
    cbn; repeat split; try reflexivity; lia.
Qed.

Lemma pages_for_covers (length : Z) :
  0 <= length ->
  0 <= pages_for length /\ length <= pages_for length * 65536.
Proof.
  intros H. unfold pages_for, numBytesPerPage.
  Z.div_mod_to_equations. lia.
Qed.

(** One [mmap] that fits. *)
Lemma mmap_fits (st : State) (addr length prot flags offset : Z) :
  is_u32 length ->
  0 <= numPages (memory st) < 65536 ->
  numPages (memory st) + pages_for length
  <= Z.min (maxPages (memory st)) maxMemoryPages ->
  exists b st',
    __syscall_mmap addr length prot flags (-1) offset st = (Ok b, st')
    /\ to_u32 b = numPages (memory st) * 65536
    /\ numPages (memory st') = numPages (memory st) + pages_for length
    /\ maxPages (memory st') = maxPages (memory st)
    /\ bytes (memory st') = bytes (memory st).
Proof.
  intros Hl Hp Hmax. unfold is_u32 in Hl.
  destruct (pages_for_covers length ltac:(lia)) as [Hn0 _].
  unfold __syscall_mmap. rewrite Z.eqb_refl. cbn [negb].
  fold (pages_for length). unfold bind, getModuleMemory. cbv beta iota.
  destruct (SyscallsSpec.growMemory_ok (memory st) (pages_for length)
              Hn0 ltac:(lia) ltac:(lia) ltac:(lia))
    as (Hb & Hnp & Hmp & Hby).
  destruct (growMemory (memory st) (pages_for length)) as [base m'].
  cbn [fst snd] in Hb, Hnp, Hmp, Hby. subst base.
  unfold putModuleMemory, ret. cbv beta iota.
  eexists _, _. split; [reflexivity |]. cbn [memory set_memory].
  split; [| tauto].
  rewrite to_u32_to_i32. apply to_u32_id. unfold is_u32, numBytesPerPage. lia.
Qed.

(** X11.  Two [mmap] calls in a row, both fitting under the memory's
    limits, hand out consecutive blocks: the second address is the first
    plus the whole pages of the first request, so the first block, of at
    least [length1] bytes, ends where the second begins, and the memory
    has grown by the pages of both. *)
Theorem mmap_blocks_are_consecutive
  (st : State)
  (addr1 length1 prot1 flags1 offset1 addr2 length2 prot2 flags2 offset2 : Z) :
  is_u32 length1 -> is_u32 length2 ->
  0 <= numPages (memory st) ->
  numPages (memory st) + pages_for length1 < 65536 ->
  numPages (memory st) + pages_for length1 + pages_for length2
  <= Z.min (maxPages (memory st)) maxMemoryPages ->
  exists b1 st1 b2 st2,
    __syscall_mmap addr1 length1 prot1 flags1 (-1) offset1 st = (Ok b1, st1)
    /\ __syscall_mmap addr2 length2 prot2 flags2 (-1) offset2 st1 = (Ok b2, st2)
    /\ to_u32 b2 = to_u32 b1 + pages_for length1 * 65536
    /\ to_u32 b1 + length1 <= to_u32 b2
    /\ numPages (memory st2)
       = numPages (memory st) + pages_for length1 + pages_for length2.
Proof.
  intros Hl1 Hl2 Hp Hfit1 Hfit.
  destruct (pages_for_covers length1 ltac:(unfold is_u32 in Hl1; lia))
    as [Hn1 Hc1].
  destruct (pages_for_covers length2 ltac:(unfold is_u32 in Hl2; lia))
    as [Hn2 _].
  destruct (mmap_fits st addr1 length1 prot1 flags1 offset1 Hl1
              ltac:(lia) ltac:(lia))
    as (b1 & st1 & E1 & Hb1 & Hnp1 & Hmp1 & _).
  destruct (mmap_fits st1 addr2 length2 prot2 flags2 offset2 Hl2
              ltac:(lia) ltac:(lia))
    as (b2 & st2 & E2 & Hb2 & Hnp2 & _).
  exists b1, st1, b2, st2. repeat split; try assumption; lia.
Qed.

(** Two pages in use, room for eight: requests of 130000 and 10 bytes. *)
Lemma mmap_blocks_are_consecutive_witness :
  exists b1 st1 b2 st2,
    __syscall_mmap 0 130000 0 0 (-1) 0 (st_pages 8) = (Ok b1, st1)
    /\ __syscall_mmap 0 10 0 0 (-1) 0 st1 = (Ok b2, st2)
    /\ to_u32 b2 = to_u32 b1 + 2 * 65536
    /\ numPages (memory st2) = 5.
Proof.
  destruct (mmap_blocks_are_consecutive (st_pages 8)
              0 130000 0 0 0 0 10 0 0 0)
    as (b1 & st1 & b2 & st2 & E1 & E2 & Hb & _ & Hn).
  - unfold is_u32. lia.
  - unfold is_u32. lia.
  - cbn. lia.
  - change (2 + 2 < 65536). lia.
  - change (2 + 2 + 1 <= 8). lia.
  - exists b1, st1, b2, st2. repeat split; assumption.
Defined.

(** X12.  Neither [mmap] nor [brk] ever shrinks the guest memory, lowers
    its maximum, alters a byte of it, calls the host or changes the
    registry, whatever their arguments and whether or not they succeed. *)
Theorem memory_only_grows
  (st : State) (addr length prot flags fd offset brkAddr : Z) :
  is_u32 length ->
  let after_mmap := snd (__syscall_mmap addr length prot flags fd offset st) in
  let after_brk := snd (__syscall_brk brkAddr st) in
  (numPages (memory st) <= numPages (memory after_mmap)
   /\ maxPages (memory after_mmap) = maxPages (memory st)
   /\ bytes (memory after_mmap) = bytes (memory st)
   /\ openFds after_mmap = openFds st
   /\ trace after_mmap = trace st)
  /\ (numPages (memory st) <= numPages (memory after_brk)
      /\ maxPages (memory after_brk) = maxPages (memory st)
      /\ bytes (memory after_brk) = bytes (memory st)
      /\ openFds after_brk = openFds st
      /\ trace after_brk = trace st).
Proof.
  intros Hl after_mmap after_brk. split.
  - subst after_mmap. unfold __syscall_mmap.
    destruct (fd =? -1); cbn [negb]; [| cbn; repeat split; try reflexivity; lia].
    unfold bind, getModuleMemory. cbv beta iota.
    destruct (pages_for_covers length ltac:(unfold is_u32 in Hl; lia))
      as [Hn _].
    pose proof (growMemory_grows (memory st) (pages_for length) Hn) as Hg.
    fold (pages_for length).
    destruct (growMemory (memory st) (pages_for length)) as [base m'].
    cbn [snd] in Hg. cbn. tauto.
  - subst after_brk. unfold __syscall_brk, bind, getModuleMemory,
      getMemoryNumPages. cbv beta iota.
    destruct (Z.leb_spec (brkAddr / numBytesPerPage) (numPages (memory st)));
      [cbn; repeat split; try reflexivity; lia |].
    pose proof (growMemory_grows (memory st)
                  (brkAddr / numBytesPerPage - numPages (memory st))
                  ltac:(lia)) as Hg.
    cbn. tauto.
Qed.

Lemma memory_only_grows_witness :
  numPages (memory (st_pages 3))
  <= numPages (memory (snd (__syscall_mmap 0 130000 0 0 (-1) 0 (st_pages 3))))
  /\ numPages (memory (st_pages 3))
     <= numPages (memory (snd (__syscall_brk 655360 (st_pages 3)))).
Proof.
  destruct (memory_only_grows (st_pages 3) 0 130000 0 0 (-1) 0 655360)
    as ((H1 & _) & (H2 & _)).
  - unfold is_u32. lia.
  - split; [exact H1 | exact H2].
Defined.

End SyscallsExtra.

(** ** The OpenMP runtime, continued *)

Module OpenMPExtra.
Import OpenMP Samples OmpSamples OpenMPMore.

Ltac omp_names :=
  unfold bind, ret, throwException, get, rd, wr, memoryRef.

(** *** Static loops *)

Lemma loop_memory_variables (lower upper : Z) :
  loop_variables (loop_memory lower upper) 0 4 8 12.
Proof.
  unfold loop_variables, apart.
  repeat split; try reflexivity; lia.
Qed.

(** The loop from 0 to 9 on three threads: every iteration has a thread. *)
Lemma static_balanced_partition_witness :
  exists lo up : Z -> Z,
    forall i : Z,
      iterates 0 9 1 i = true ->
      exists t, 0 <= t < 3 /\ iterates (lo t) (up t) 1 i = true.
Proof.
  destruct (OpenMPSpec.static_balanced_partition
              (omp_state 3 0 (loop_memory 0 9)) 0 0 0 4 8 12 1 0)
    as (lo & up & _ & Hcover & _).
  - apply loop_memory_variables.
  - change (well_formed_loop 0 9 1).
    unfold well_formed_loop, is_i32. repeat split; lia.
  - cbn. lia.
  - change (3 <= 10 <= 4294967295). lia.
  - exists lo, up. intros i Hi.
    destruct (Hcover i Hi) as (t & Ht & Hit & _).
    exists t. split; [exact Ht | exact Hit].
Defined.

Lemma trip_count_positive (lower upper incr : Z) :
  well_formed_loop lower upper incr -> 1 <= trip_count lower upper incr.
Proof.
  unfold well_formed_loop, trip_count.
  intros (_ & _ & _ & H0 & Hp & Hn & _).
  destruct (Z.ltb_spec 0 incr).
  - assert (0 <= (upper - lower) / incr) by (apply Z.div_pos; lia). lia.
  - assert (0 <= (lower - upper) / - incr) by (apply Z.div_pos; lia). lia.
Qed.

(** A loop whose bounds are the wrong way round takes on no value. *)
Lemma iterates_nothing (lower upper incr i : Z) :
  (0 < incr -> upper < lower) -> (incr <= 0 -> lower < upper) ->
  iterates lower upper incr i = false.
Proof.
  intros Hp Hn. unfold iterates.
  destruct (Z.ltb_spec 0 incr).
  - destruct (Z.leb_spec lower i); [| reflexivity].
    destruct (Z.leb_spec i upper); [lia | reflexivity].
  - destruct (Z.leb_spec upper i); [| reflexivity].
    destruct (Z.leb_spec i lower); [lia | reflexivity].
Qed.

Lemma to_i32_add_l (x y : Z) : to_i32 (x + to_i32 y) = to_i32 (x + y).
Proof.
  destruct (to_i32_eqm y) as [k Hk]. apply to_i32_congr with k. lia.
Qed.

(** What one thread gets when there are fewer iterations than threads. *)
Lemma static_small_thread
  (st : State)
  (loc gtid lastIterPtr lowerPtr upperPtr stridePtr incr chunk : Z) :
  let m := defaultMemory st in
  let lower := load_i32 m lowerPtr in
  let upper := load_i32 m upperPtr in
  let N := num_threads (thisLevel st) in
  let tid := thisThreadNumber st in
  let T := trip_count lower upper incr in
  loop_variables m lastIterPtr lowerPtr upperPtr stridePtr ->
  well_formed_loop lower upper incr ->
  2 <= N <= 2147483647 ->
  0 <= tid < N ->
  T < N ->
  is_i32 (upper + incr) ->
  exists st',
    __kmpc_for_static_init_4 loc gtid kmp.sch_static lastIterPtr lowerPtr
      upperPtr stridePtr incr chunk st = (Ok tt, st')
    /\ load_i32 (defaultMemory st') lowerPtr = small_lower lower upper incr T tid
    /\ load_i32 (defaultMemory st') upperPtr = small_upper lower upper incr T tid
    /\ load_i32 (defaultMemory st') lastIterPtr
       = (if tid =? T - 1 then 1 else 0)
    /\ load_u32 (defaultMemory st') stridePtr = T.
Proof.
  intros m lower upper N tid T
    (V1 & V2 & V3 & V4 & A12 & A13 & A14 & A23 & A24 & A34)
    Hwf HN Htid HT Hwrap.
  unfold apart in *.
  pose proof (trip_count_positive lower upper incr Hwf) as HT1. fold T in HT1.
  unfold __kmpc_for_static_init_4. omp_names.
  cbv beta iota. fold m. rewrite V1. cbv beta iota. fold m. rewrite V2.
  cbv beta iota. fold m. rewrite V3. cbv beta iota. fold m. rewrite V4.
  cbv beta iota. fold N tid.
  destruct (Z.eqb_spec N 1) as [? | _]; [lia |].
  fold m lower upper.
  rewrite (OpenMPSpec.tripCount_exact lower upper incr Hwf) by (fold T; lia).
  fold T. change (kmp.sch_static =? kmp.sch_static_chunked) with false.
  change (kmp.sch_static =? kmp.sch_static) with true. cbv beta iota.
  rewrite (to_u32_id N) by (unfold is_u32; lia).
  rewrite (to_u32_id tid) by (unfold is_u32; lia).
  rewrite (to_u32_id (T - 1)) by (unfold is_u32; lia).
  destruct (Z.ltb_spec T N) as [_ | ?]; [| lia].
  unfold small_lower, small_upper.
  destruct (Z.ltb_spec tid T) as [Hin | Hout].
  - destruct (OpenMPSpec.iteration_in_range lower upper incr tid Hwf
                ltac:(fold T; lia)) as (Hr & _).
    eexists. split; [reflexivity |].
    cbn [defaultMemory set_memory]. fold m. fold lower.
    rewrite (load_i32_store32_same m lowerPtr).
    rewrite to_i32_add_l.
    replace (lower + tid * incr) with (lower + incr * tid) by lia.
    rewrite !(to_i32_id (lower + incr * tid)) by exact Hr.
    repeat split.
    + rewrite !load_i32_store32_other by lia. rewrite load_i32_store32_same.
      now apply to_i32_id.
    + rewrite !load_i32_store32_other by lia. rewrite load_i32_store32_same.
      now apply to_i32_id.
    + rewrite !load_i32_store32_other by lia. rewrite load_i32_store32_same.
      destruct (tid =? T - 1); reflexivity.
    + rewrite load_u32_store32_same. rewrite to_u32_to_i32.
      apply to_u32_id. unfold is_u32. lia.
  - eexists. split; [reflexivity |].
    cbn [defaultMemory set_memory]. fold m. fold upper.
    repeat split.
    + rewrite !load_i32_store32_other by lia. rewrite load_i32_store32_same.
      rewrite (to_i32_id (upper + incr)) by exact Hwrap. now apply to_i32_id.
    + rewrite !load_i32_store32_other by lia. reflexivity.
    + rewrite !load_i32_store32_other by lia. rewrite load_i32_store32_same.
      destruct (tid =? T - 1); reflexivity.
    + rewrite load_u32_store32_same. rewrite to_u32_to_i32.
      apply to_u32_id. unfold is_u32. lia.
Qed.

(** X14.  The static schedule on a well-formed loop with fewer iterations
    than threads (and [upper + incr] representable): thread [t] below the
    trip count gets the single iteration [lower + incr * t], every other
    thread an empty range; so each iteration belongs to exactly one thread
    and no range holds anything else.  [lastIter] is set for the thread of
    the last iteration only, and [stride] is the trip count. *)
Theorem static_small_partition
  (st : State)
  (loc gtid lastIterPtr lowerPtr upperPtr stridePtr incr chunk : Z) :
  let m := defaultMemory st in
  let lower := load_i32 m lowerPtr in
  let upper := load_i32 m upperPtr in
  let N := num_threads (thisLevel st) in
  let T := trip_count lower upper incr in
  let lo := small_lower lower upper incr T in
  let up := small_upper lower upper incr T in
  loop_variables m lastIterPtr lowerPtr upperPtr stridePtr ->
  well_formed_loop lower upper incr ->
  2 <= N <= 2147483647 ->
  T < N ->
  is_i32 (upper + incr) ->
  (forall t, 0 <= t < N ->
     exists st',
       __kmpc_for_static_init_4 loc gtid kmp.sch_static lastIterPtr lowerPtr
         upperPtr stridePtr incr chunk (as_thread t st) = (Ok tt, st')
       /\ load_i32 (defaultMemory st') lowerPtr = lo t
       /\ load_i32 (defaultMemory st') upperPtr = up t
       /\ load_i32 (defaultMemory st') lastIterPtr
          = (if t =? T - 1 then 1 else 0)
       /\ load_u32 (defaultMemory st') stridePtr = T)
  /\ (forall t, 0 <= t < T -> lo t = lower + incr * t /\ up t = lo t)
  /\ (forall t i, T <= t -> iterates (lo t) (up t) incr i = false)
  /\ (forall i, iterates lower upper incr i = true ->
        exists t, 0 <= t < N
                  /\ iterates (lo t) (up t) incr i = true
                  /\ forall t', 0 <= t' < N ->
                                iterates (lo t') (up t') incr i = true ->
                                t' = t)
  /\ (forall t i, 0 <= t < N -> iterates (lo t) (up t) incr i = true ->
                  iterates lower upper incr i = true).
Proof.
  intros m lower upper N T lo up Hvars Hwf HN HT Hwrap.
  assert (H0 : incr <> 0) by (destruct Hwf as (_ & _ & _ & H & _); exact H).
  pose proof (trip_count_positive lower upper incr Hwf) as HT1. fold T in HT1.
  assert (Hone : forall t, 0 <= t < T ->
                   lo t = lower + incr * t /\ up t = lo t).
  { intros t Ht. subst lo up. unfold small_lower, small_upper.
    destruct (Z.ltb_spec t T); [split; reflexivity | lia]. }
  assert (Hnone : forall t i, T <= t -> iterates (lo t) (up t) incr i = false).
  { intros t i Ht. subst lo up. unfold small_lower, small_upper.
    destruct (Z.ltb_spec t T); [lia |].
    apply iterates_nothing; lia. }
  assert (Hsingle : forall t i, 0 <= t < T ->
            (iterates (lo t) (up t) incr i = true <-> i = lower + incr * t)).
  { intros t i Ht. destruct (Hone t Ht) as [-> ->].
    rewrite (OpenMPSpec.iterates_grid lower incr t t i H0).
    split.
    - intros (j & Hj & ->). f_equal. f_equal. lia.
    - intros ->. exists t. split; [lia | reflexivity]. }
  split; [| split; [exact Hone | split; [exact Hnone | split]]].
  - intros t Ht.
    exact (static_small_thread (as_thread t st) loc gtid lastIterPtr lowerPtr
             upperPtr stridePtr incr chunk Hvars Hwf HN Ht HT Hwrap).
  - intros i Hi.
    apply (OpenMPSpec.iterates_loop lower upper incr i Hwf) in Hi.
    destruct Hi as (k & Hk & ->). fold T in Hk.
    exists k. split; [lia |]. split.
    + apply Hsingle; [exact Hk | reflexivity].
    + intros t' Ht' Hi'.
      destruct (Z_lt_le_dec t' T) as [Hlt | Hge].
      * apply Hsingle in Hi'; [| lia]. nia.
      * rewrite Hnone in Hi' by exact Hge. discriminate.
  - intros t i Ht Hi.
    destruct (Z_lt_le_dec t T) as [Hlt | Hge].
    + apply Hsingle in Hi; [| lia]. subst i.
      apply (OpenMPSpec.iterates_loop lower upper incr _ Hwf).
      exists t. split; [fold T; lia | reflexivity].
    + rewrite Hnone in Hi by exact Hge. discriminate.
Qed.

(** Four threads on the loop from 5 to 6: thread 1 gets iteration 6 and the
    last-iteration flag, thread 3 gets nothing. *)
Lemma static_small_partition_witness :
  static_init_result 4 1 kmp.sch_static 5 6 1 0 = Some (1, 6, 6, 2)
  /\ (forall i : Z, iterates (small_lower 5 6 1 2 3) (small_upper 5 6 1 2 3) 1 i
                    = false).
Proof.
  destruct (static_small_partition (omp_state 4 0 (loop_memory 5 6))
              0 0 0 4 8 12 1 0)
    as (Hrun & _ & Hnone & _).
  - apply loop_memory_variables.
  - change (well_formed_loop 5 6 1).
    unfold well_formed_loop, is_i32. repeat split; lia.
  - cbn. lia.
  - change (2 < 4). lia.
  - change (is_i32 (6 + 1)). unfold is_i32. lia.
  - split.
    + destruct (Hrun 1 ltac:(cbn; lia)) as (st' & E & Hl & Hu & Hlast & Hs).
      reflexivity.
    + intros i. apply (Hnone 3 i). change (2 <= 3). lia.
Defined.

(** What one thread gets from the chunked schedule. *)
Lemma static_chunked_thread
  (st : State)
  (loc gtid lastIterPtr lowerPtr upperPtr stridePtr incr chunk : Z) :
  let m := defaultMemory st in
  let lower := load_i32 m lowerPtr in
  let upper := load_i32 m upperPtr in
  let N := num_threads (thisLevel st) in
  let tid := thisThreadNumber st in
  let T := trip_count lower upper incr in
  let c := Z.max chunk 1 in
  loop_variables m lastIterPtr lowerPtr upperPtr stridePtr ->
  well_formed_loop lower upper incr ->
  2 <= N <= 2147483647 ->
  0 <= tid < N ->
  T <= 4294967295 ->
  is_i32 (c * incr * N) ->
  is_i32 (lower + c * incr * N) ->
  exists st',
    __kmpc_for_static_init_4 loc gtid kmp.sch_static_chunked lastIterPtr
      lowerPtr upperPtr stridePtr incr chunk st = (Ok tt, st')
    /\ load_i32 (defaultMemory st') lowerPtr = chunked_lower lower incr c N tid 0
    /\ load_i32 (defaultMemory st') upperPtr = chunked_upper lower incr c N tid 0
    /\ load_i32 (defaultMemory st') stridePtr = c * incr * N
    /\ load_i32 (defaultMemory st') lastIterPtr
       = (if tid =? ((T - 1) / c) mod N then 1 else 0).
Proof.
  intros m lower upper N tid T c
    (V1 & V2 & V3 & V4 & A12 & A13 & A14 & A23 & A24 & A34)
    Hwf HN Htid HT Hstride Hend.
  unfold apart in *.
  pose proof (trip_count_positive lower upper incr Hwf) as HT1. fold T in HT1.
  assert (Hl : is_i32 lower) by (destruct Hwf as (H & _); exact H).
  assert (H0 : incr <> 0) by (destruct Hwf as (_ & _ & _ & H & _); exact H).
  assert (Hc : 1 <= c) by (subst c; lia).
  unfold is_i32 in Hstride, Hend, Hl.
  set (s := c * incr) in *.
  assert (Hs : is_i32 s) by (unfold is_i32; nia).
  assert (Hst : is_i32 (s * tid)) by (unfold is_i32; nia).
  assert (Hlo : is_i32 (lower + s * tid)) by (unfold is_i32; nia).
  assert (Hnext : is_i32 (lower + s * tid + s)) by (unfold is_i32; nia).
  assert (Hup : is_i32 (lower + s * tid + s - incr))
    by (unfold is_i32; subst s; nia).
  assert (Hcu : c <= 4294967295) by (subst s; nia).
  unfold __kmpc_for_static_init_4. omp_names.
  cbv beta iota. fold m. rewrite V1. cbv beta iota. fold m. rewrite V2.
  cbv beta iota. fold m. rewrite V3. cbv beta iota. fold m. rewrite V4.
  cbv beta iota. fold N tid.
  destruct (Z.eqb_spec N 1) as [? | _]; [lia |].
  fold m lower upper.
  rewrite (OpenMPSpec.tripCount_exact lower upper incr Hwf) by (fold T; lia).
  fold T.
  change (kmp.sch_static_chunked =? kmp.sch_static_chunked) with true.
  cbv beta iota.
  replace (if chunk <? 1 then 1 else chunk) with c
    by (subst c; destruct (Z.ltb_spec chunk 1); lia).
  fold s. rewrite (to_i32_id s) by exact Hs.
  destruct (Z.eqb_spec N 0) as [? | _]; [lia |].
  eexists. split; [reflexivity |].
  cbn [defaultMemory set_memory].
  rewrite (load_i32_store32_other m stridePtr lowerPtr) by lia.
  fold lower.
  rewrite (to_i32_id (s * tid)) by exact Hst.
  rewrite (to_i32_id (lower + s * tid)) by exact Hlo.
  rewrite (load_i32_store32_same _ lowerPtr).
  rewrite (to_i32_id (lower + s * tid)) by exact Hlo.
  rewrite (to_i32_id (lower + s * tid + s)) by exact Hnext.
  rewrite (to_i32_id (lower + s * tid + s - incr)) by exact Hup.
  rewrite (to_u32_id N) by (unfold is_u32; lia).
  rewrite (to_u32_id tid) by (unfold is_u32; lia).
  rewrite (to_u32_id (T - 1)) by (unfold is_u32; lia).
  rewrite (to_u32_id c) by (unfold is_u32; lia).
  unfold chunked_lower, chunked_upper.
  repeat split.
  - rewrite !load_i32_store32_other by lia. rewrite load_i32_store32_same.
    rewrite to_i32_id by exact Hlo. subst s. lia.
  - rewrite !load_i32_store32_other by lia. rewrite load_i32_store32_same.
    rewrite to_i32_id by exact Hup. subst s. lia.
  - rewrite !load_i32_store32_other by lia. rewrite load_i32_store32_same.
    rewrite (to_i32_id (s * N)) by (unfold is_i32; lia).
    apply to_i32_id. unfold is_i32. lia.
  - rewrite load_i32_store32_same.
    destruct (tid =? (T - 1) / c mod N); reflexivity.
Qed.

(** Iteration number [k] lies in the chunk of thread [t] in round [r]
    exactly when [k / c] is the chunk number [r * N + t]. *)
Lemma chunk_holds (lower incr c N t r k : Z) :
  incr <> 0 -> 1 <= c ->
  (iterates (chunked_lower lower incr c N t r)
     (chunked_upper lower incr c N t r) incr (lower + incr * k) = true
   <-> k / c = r * N + t).
Proof.
  intros H0 Hc. unfold chunked_lower, chunked_upper.
  rewrite (OpenMPSpec.iterates_grid lower incr _ _ _ H0).
  split.
  - intros (j & Hj & E).
    assert (j = k) by nia. subst j.
    symmetry. apply (Z.div_unique k c (r * N + t) (k - c * (r * N + t))); lia.
  - intros E. exists k. split; [| reflexivity].
    pose proof (Z.div_mod k c ltac:(lia)) as Hdm.
    pose proof (Z.mod_pos_bound k c ltac:(lia)) as Hm.
    rewrite E in Hdm. lia.
Qed.

(** X15.  The chunked static schedule on a well-formed loop, when the
    products involved are representable: with [c] the chunk size (at least
    1), thread [t] is handed the first chunk of its own, [c] iterations
    starting at iteration number [c * t], and a stride of [c * N]
    iterations that leads from one of its chunks to the next.  The chunks
    reached in this way are disjoint and cover the loop: every iteration
    lies in the chunk of exactly one thread and round.  [lastIter] is set
    for the thread one of whose chunks holds the last iteration. *)
Theorem static_chunked_partition
  (st : State)
  (loc gtid lastIterPtr lowerPtr upperPtr stridePtr incr chunk : Z) :
  let m := defaultMemory st in
  let lower := load_i32 m lowerPtr in
  let upper := load_i32 m upperPtr in
  let N := num_threads (thisLevel st) in
  let T := trip_count lower upper incr in
  let c := Z.max chunk 1 in
  let lo := chunked_lower lower incr c N in
  let up := chunked_upper lower incr c N in
  loop_variables m lastIterPtr lowerPtr upperPtr stridePtr ->
  well_formed_loop lower upper incr ->
  2 <= N <= 2147483647 ->
  T <= 4294967295 ->
  is_i32 (c * incr * N) ->
  is_i32 (lower + c * incr * N) ->
  (forall t, 0 <= t < N ->
     exists st' last,
       __kmpc_for_static_init_4 loc gtid kmp.sch_static_chunked lastIterPtr
         lowerPtr upperPtr stridePtr incr chunk (as_thread t st) = (Ok tt, st')
       /\ load_i32 (defaultMemory st') lowerPtr = lo t 0
       /\ load_i32 (defaultMemory st') upperPtr = up t 0
       /\ (forall r, lo t r = lo t 0 + r * load_i32 (defaultMemory st') stridePtr
                     /\ up t r = up t 0 + r * load_i32 (defaultMemory st') stridePtr)
       /\ load_i32 (defaultMemory st') lastIterPtr = last
       /\ (last = 1 \/ last = 0)
       /\ (last = 1 <->
           exists r, 0 <= r
                     /\ iterates (lo t r) (up t r) incr
                          (lower + incr * (T - 1)) = true))
  /\ (forall i, iterates lower upper incr i = true ->
        exists t r, 0 <= t < N /\ 0 <= r
                    /\ iterates (lo t r) (up t r) incr i = true
                    /\ forall t' r', 0 <= t' < N -> 0 <= r' ->
                                     iterates (lo t' r') (up t' r') incr i = true ->
                                     t' = t /\ r' = r).
Proof.
  intros m lower upper N T c lo up Hvars Hwf HN HT Hstride Hend.
  assert (H0 : incr <> 0) by (destruct Hwf as (_ & _ & _ & H & _); exact H).
  assert (Hc : 1 <= c) by (subst c; lia).
  pose proof (trip_count_positive lower upper incr Hwf) as HT1. fold T in HT1.
  assert (Hown : forall k t, 0 <= k -> 0 <= t < N ->
            (t = (k / c) mod N
             <-> exists r, 0 <= r /\ k / c = r * N + t)).
  { intros k t Hk Ht.
    assert (0 <= k / c) by (apply Z.div_pos; lia).
    split.
    - intros ->. exists ((k / c) / N). split; [apply Z.div_pos; lia |].
      pose proof (Z.div_mod (k / c) N ltac:(lia)). lia.
    - intros (r & Hr & E). rewrite E.
      rewrite Z.add_comm, Z.mod_add by lia. symmetry. apply Z.mod_small. lia. }
  split.
  - intros t Ht.
    destruct (static_chunked_thread (as_thread t st) loc gtid lastIterPtr
                lowerPtr upperPtr stridePtr incr chunk Hvars Hwf HN Ht HT
                Hstride Hend)
      as (st' & Hrun & Hlo & Hup & Hs & Hlast).
    cbn [as_thread thisThreadNumber thisLevel defaultMemory] in Hrun, Hlo, Hup,
      Hs, Hlast.
    fold m lower upper N T c in Hrun, Hlo, Hup, Hs, Hlast.
    exists st', (if t =? ((T - 1) / c) mod N then 1 else 0).
    split; [exact Hrun |]. split; [exact Hlo |]. split; [exact Hup |].
    split.
    { intros r. rewrite Hs. subst lo up.
      unfold chunked_lower, chunked_upper. split; ring. }
    split; [exact Hlast |].
    split; [destruct (t =? ((T - 1) / c) mod N); auto |].
    subst lo up.
    destruct (Z.eqb_spec t (((T - 1) / c) mod N)) as [E | E].
    + split; [| reflexivity]. intros _.
      apply (Hown (T - 1) t ltac:(lia) Ht) in E.
      destruct E as (r & Hr & E). exists r. split; [exact Hr |].
      apply chunk_holds; assumption.
    + split; [discriminate |]. intros (r & Hr & Hin).
      apply chunk_holds in Hin; [| assumption | assumption].
      exfalso. apply E. apply (Hown (T - 1) t ltac:(lia) Ht).
      exists r. split; assumption.
  - intros i Hi.
    apply (OpenMPSpec.iterates_loop lower upper incr i Hwf) in Hi.
    destruct Hi as (k & Hk & ->). fold T in Hk.
    assert (Hq : 0 <= k / c) by (apply Z.div_pos; lia).
    assert (HtN : 0 <= (k / c) mod N < N) by (apply Z.mod_pos_bound; lia).
    exists ((k / c) mod N), ((k / c) / N).
    split; [exact HtN |]. split; [apply Z.div_pos; lia |].
    subst lo up. split.
    + apply chunk_holds; [assumption | assumption |].
      pose proof (Z.div_mod (k / c) N ltac:(lia)). lia.
    + intros t' r' Ht' Hr' Hin.
      apply chunk_holds in Hin; [| assumption | assumption].
      rewrite Hin.
      split.
      * rewrite Z.add_comm, Z.mod_add by lia. symmetry. apply Z.mod_small. lia.
      * apply (Z.div_unique (r' * N + t') N r' t'); lia.
Qed.

(** Ten iterations in chunks of two on three threads: thread 1 starts with
    the iterations 2 and 3, its next chunk is six further on, and it is the
    one that runs the last iteration. *)
Lemma static_chunked_partition_witness :
  static_init_result 3 1 kmp.sch_static_chunked 0 9 1 2 = Some (1, 2, 3, 6)
  /\ exists t r, 0 <= t < 3 /\ 0 <= r
                 /\ iterates (chunked_lower 0 1 2 3 t r) (chunked_upper 0 1 2 3 t r)
                      1 9 = true.
Proof.
  destruct (static_chunked_partition (omp_state 3 0 (loop_memory 0 9))
              0 0 0 4 8 12 1 2)
    as (_ & Hcover).
  - apply loop_memory_variables.
  - change (well_formed_loop 0 9 1).
    unfold well_formed_loop, is_i32. repeat split; lia.
  - cbn. lia.
  - change (10 <= 4294967295). lia.
  - change (is_i32 6). unfold is_i32. lia.
  - change (is_i32 6). unfold is_i32. lia.
  - split; [reflexivity |].
    destruct (Hcover 9 eq_refl) as (t & r & Ht & Hr & Hin & _).
    exists t, r. split; [exact Ht |]. split; [exact Hr | exact Hin].
Defined.

(** X16.  In a team of more than one thread, a schedule other than the two
    implemented ones makes the call fail with a runtime error that names
    the schedule, before any of the guest's loop variables is written. *)
Theorem static_init_unknown_schedule
  (st : State)
  (loc gtid schedule lastIterPtr lowerPtr upperPtr stridePtr incr chunk : Z) :
  validRange (defaultMemory st) lastIterPtr 4 = true ->
  validRange (defaultMemory st) lowerPtr 4 = true ->
  validRange (defaultMemory st) upperPtr 4 = true ->
  validRange (defaultMemory st) stridePtr 4 = true ->
  num_threads (thisLevel st) <> 1 ->
  incr <> 0 ->
  schedule <> kmp.sch_static_chunked ->
  schedule <> kmp.sch_static ->
  __kmpc_for_static_init_4 loc gtid schedule lastIterPtr lowerPtr upperPtr
    stridePtr incr chunk st
  = (Throw (runtime_error "Unimplemented scheduler" (Some schedule)), st).
Proof.
  intros V1 V2 V3 V4 HN H0 Hs1 Hs2.
  unfold __kmpc_for_static_init_4. omp_names.
  cbv beta iota. rewrite V1. cbv beta iota. rewrite V2.
  cbv beta iota. rewrite V3. cbv beta iota. rewrite V4. cbv beta iota.
  destruct (Z.eqb_spec (num_threads (thisLevel st)) 1); [contradiction |].
  assert (Htrip : exists T,
             tripCount (load_i32 (defaultMemory st) lowerPtr)
               (load_i32 (defaultMemory st) upperPtr) incr = Ok T).
  { unfold tripCount.
    destruct (incr =? 1); [eauto |]. destruct (incr =? -1); [eauto |].
    destruct (0 <? incr); [eauto |].
    destruct (Z.eqb_spec incr 0); [contradiction | eauto]. }
  destruct Htrip as [T ->].
  destruct (Z.eqb_spec schedule kmp.sch_static_chunked); [contradiction |].
  destruct (Z.eqb_spec schedule kmp.sch_static); [contradiction |].
  reflexivity.
Qed.

Lemma static_init_unknown_schedule_witness :
  __kmpc_for_static_init_4 0 0 35 0 4 8 12 1 0 (omp_state 3 0 (loop_memory 0 9))
  = (Throw (runtime_error "Unimplemented scheduler" (Some 35)),
     omp_state 3 0 (loop_memory 0 9)).
Proof.
  apply static_init_unknown_schedule;
    try reflexivity; cbn; discriminate.
Defined.

(** *** Reductions *)

Lemma set_level_same (st : State) : set_level (thisLevel st) st = st.
Proof. destruct st. reflexivity. Qed.

(** X17.  In local mode, with the reduction lock free, [__kmpc_reduce]
    returns 1; in a team of several threads it holds the lock afterwards,
    so that the same call by any thread of the team does not proceed; and
    [__kmpc_end_reduce] (or its [nowait] variant) then restores the state
    in which the reduction started. *)
Theorem reduce_then_end_reduce
  (st : State)
  (loc gtid num_vars reduce_size reduce_data reduce_func lck : Z) :
  userNumDevice st = 1 ->
  reduceMutex (thisLevel st) = None ->
  1 <= num_threads (thisLevel st) ->
  exists st1,
    __kmpc_reduce loc gtid num_vars reduce_size reduce_data reduce_func lck st
    = (Ok 1, st1)
    /\ (num_threads (thisLevel st) <> 1 ->
        forall t,
          __kmpc_reduce loc gtid num_vars reduce_size reduce_data reduce_func
            lck (as_thread t st1)
          = (Throw blockedOnLock, as_thread t st1))
    /\ __kmpc_end_reduce loc gtid lck st1 = (Ok tt, st)
    /\ __kmpc_end_reduce_nowait loc gtid lck st1 = (Ok tt, st).
Proof.
  intros Hdev Hfree HN.
  unfold __kmpc_reduce, __kmpc_end_reduce, __kmpc_end_reduce_nowait,
    startReduction, endReduction, determineReductionMethod.
  destruct st as [[N pushed mutex] tid m dev key size evs].
  cbn in Hdev, Hfree, HN. subst dev mutex.
  unfold bind, ret, get. cbn [thisLevel num_threads userNumDevice].
  destruct (Z.eqb_spec N 1) as [-> | Hne].
  - eexists. split; [reflexivity |]. split; [intros H; now contradiction H |].
    cbn. split; reflexivity.
  - eexists. split; [reflexivity |]. split.
    + intros _ t. cbn. destruct (Z.eqb_spec N 1); [contradiction | reflexivity].
    + cbn. destruct (Z.ltb_spec 1 N); [| lia].
      unfold reduceMutex_unlock. cbn. rewrite Z.eqb_refl.
      split; reflexivity.
Qed.

Lemma reduce_then_end_reduce_witness :
  exists st1,
    __kmpc_reduce 0 0 1 4 0 0 0 (omp_state 3 2 (loop_memory 0 9)) = (Ok 1, st1)
    /\ __kmpc_reduce 0 0 1 4 0 0 0 (as_thread 0 st1)
       = (Throw blockedOnLock, as_thread 0 st1)
    /\ __kmpc_end_reduce 0 0 0 st1 = (Ok tt, omp_state 3 2 (loop_memory 0 9)).
Proof.
  destruct (reduce_then_end_reduce (omp_state 3 2 (loop_memory 0 9))
              0 0 1 4 0 0 0)
    as (st1 & Hred & Hblock & Hend & _).
  - reflexivity.
  - reflexivity.
  - cbn. lia.
  - exists st1. split; [exact Hred |]. split; [| exact Hend].
    apply Hblock. cbn. lia.
Defined.

(** X18.  [__kmpc_reduce] does not look at the number of devices, while
    [__kmpc_end_reduce] and its [nowait] variant refuse to run unless it
    is 1: in a distributed context a team of several threads takes the
    reduction lock, and the call that would release it throws instead and
    leaves the lock held. *)
Theorem end_reduce_distributed_keeps_lock
  (st : State)
  (loc gtid num_vars reduce_size reduce_data reduce_func lck : Z) :
  userNumDevice st <> 1 ->
  reduceMutex (thisLevel st) = None ->
  num_threads (thisLevel st) <> 1 ->
  exists st1,
    __kmpc_reduce loc gtid num_vars reduce_size reduce_data reduce_func lck st
    = (Ok 1, st1)
    /\ reduceMutex (thisLevel st1) = Some (thisThreadNumber st)
    /\ __kmpc_end_reduce loc gtid lck st1
       = (Throw (runtime_error "End reduce called in distributed context" None),
          st1)
    /\ __kmpc_end_reduce_nowait loc gtid lck st1
       = (Throw (runtime_error "End reduce called in distributed context" None),
          st1).
Proof.
  intros Hdev Hfree HN.
  unfold __kmpc_reduce, __kmpc_end_reduce, __kmpc_end_reduce_nowait,
    startReduction, determineReductionMethod.
  destruct st as [[N pushed mutex] tid m dev key size evs].
  cbn in Hdev, Hfree, HN. subst mutex.
  unfold bind, ret, get, throwException.
  cbn [thisLevel num_threads userNumDevice].
  destruct (Z.eqb_spec N 1) as [? | _]; [contradiction |].
  eexists. split; [reflexivity |]. cbn.
  destruct (Z.eqb_spec dev 1); [contradiction |].
  repeat split.
Qed.

Lemma end_reduce_distributed_keeps_lock_witness :
  exists st1,
    __kmpc_reduce 0 0 1 4 0 0 0 (set_userNumDevice 2 (omp_state 3 2 (loop_memory 0 9)))
    = (Ok 1, st1)
    /\ reduceMutex (thisLevel st1) = Some 2
    /\ __kmpc_end_reduce 0 0 0 st1
       = (Throw (runtime_error "End reduce called in distributed context" None),
          st1).
Proof.
  destruct (end_reduce_distributed_keeps_lock
              (set_userNumDevice 2 (omp_state 3 2 (loop_memory 0 9)))
              0 0 1 4 0 0 0)
    as (st1 & Hred & Hheld & Hend & _).
  - cbn. discriminate.
  - reflexivity.
  - cbn. discriminate.
  - exists st1. split; [exact Hred |]. split; [exact Hheld | exact Hend].
Defined.

(** *** The number of devices *)

(** X19.  [omp_set_default_device] with a number between -3 and 3 sets the
    number of devices to its absolute value, which
    [omp_get_num_devices] then returns and which decides how the next
    parallel region is forked: locally for 1, distributed for every other
    value, 0 included (when the microtask is not found in the function
    table, the fork raises what the lookup raised, in either mode).  A
    number further from 0 is ignored. *)
Theorem set_default_device_selects_fork
  (env : Env) (st : State) (n locPtr argc microtaskPtr argsPtr : Z) :
  -2147483648 < n <= 2147483647 ->
  exists st',
    omp_set_default_device n st = (Ok tt, st')
    /\ st' = (if Z.abs n <=? 3 then set_userNumDevice (Z.abs n) st else st)
    /\ (Z.abs n <= 3 ->
        omp_get_num_devices st' = (Ok (Z.abs n), st')
        /\ __kmpc_fork_call env locPtr argc microtaskPtr argsPtr st'
           = match tableFunction env microtaskPtr with
             | Ok _ =>
                 if Z.abs n =? 1
                 then fork_local env argc microtaskPtr argsPtr st'
                 else fork_distributed env argc microtaskPtr argsPtr st'
             | Throw t => (Throw t, st')
             end).
Proof.
  intros Hn.
  unfold omp_set_default_device, userMaxNumDevices.
  rewrite (to_i32_id (Z.abs n)) by (unfold is_i32; lia).
  destruct (Z.ltb_spec 3 (Z.abs n)) as [Hbig | Hsmall].
  - exists st. split; [reflexivity |].
    destruct (Z.leb_spec (Z.abs n) 3); [lia |].
    split; [reflexivity | lia].
  - destruct (Z.leb_spec (Z.abs n) 3) as [_ | ?]; [| lia].
    assert (Hset : (if n <? 0
                    then (fun st0 : State =>
                            (Ok tt, set_userNumDevice (to_i32 (n * -1)) st0))
                    else (fun st0 : State => (Ok tt, set_userNumDevice n st0)))
                   st
                   = (Ok tt, set_userNumDevice (Z.abs n) st)).
    { destruct (Z.ltb_spec n 0).
      - rewrite (to_i32_id (n * -1)) by (unfold is_i32; lia).
        replace (n * -1) with (Z.abs n) by lia. reflexivity.
      - replace (Z.abs n) with n by lia. reflexivity. }
    eexists. split; [exact Hset |]. split; [reflexivity |].
    intros _. split; [reflexivity |].
    unfold __kmpc_fork_call, asFunction, bind, get.
    destruct (tableFunction env microtaskPtr) as [func | t]; [| reflexivity].
    cbn [userNumDevice set_userNumDevice].
    destruct (Z.abs n =? 1); reflexivity.
Qed.

Lemma set_default_device_selects_fork_witness :
  exists st',
    omp_set_default_device (-1) st_fork = (Ok tt, st')
    /\ __kmpc_fork_call cancelling_codes 0 1 0 0 st'
       = fork_local cancelling_codes 1 0 0 st'.
Proof.
  destruct (set_default_device_selects_fork cancelling_codes st_fork (-1)
              0 1 0 0)
    as (st' & Hset & _ & Hfork).
  - lia.
  - exists st'. split; [exact Hset |].
    destruct (Hfork ltac:(cbn; lia)) as [_ H]. exact H.
Defined.

(** *** Forking in local mode *)

Lemma add_events_nil (st : State) : add_events [] st = st.
Proof. destruct st. unfold add_events. cbn. now rewrite app_nil_r. Qed.

Lemma add_events_app (es1 es2 : list Event) (st : State) :
  add_events es2 (add_events es1 st) = add_events (es1 ++ es2) st.
Proof. unfold add_events. cbn. now rewrite app_assoc. Qed.

Lemma numbers_next (t : Z) (n : nat) :
  map (fun i => t + Z.of_nat i) (seq 0 (S n))
  = t :: map (fun i => (t + 1) + Z.of_nat i) (seq 0 n).
Proof.
  cbn [seq map]. f_equal; [lia |].
  rewrite <- seq_shift, map_map. apply List.map_ext. intros i. lia.
Qed.

Lemma thread_numbers_from_zero (n : Z) :
  thread_numbers n = map (fun i => 0 + Z.of_nat i) (seq 0 (Z.to_nat n)).
Proof. unfold thread_numbers. apply List.map_ext. intros i. lia. Qed.

Lemma to_i64_eqm (x : Z) : exists k, to_i64 x = x + k * 18446744073709551616.
Proof.
  unfold to_i64.
  exists (- ((x + 9223372036854775808) / 18446744073709551616)).
  pose proof (Z.div_mod (x + 9223372036854775808) 18446744073709551616
                ltac:(lia)).
  lia.
Qed.

Lemma to_i64_congr (x y k : Z) :
  x = y + k * 18446744073709551616 -> to_i64 x = to_i64 y.
Proof.
  intros ->. unfold to_i64.
  replace (y + k * 18446744073709551616 + 9223372036854775808)
    with (y + 9223372036854775808 + k * 18446744073709551616) by lia.
  now rewrite Z.mod_add by lia.
Qed.

Lemma to_i64_add_l (x y : Z) : to_i64 (to_i64 x + y) = to_i64 (x + y).
Proof.
  destruct (to_i64_eqm x) as [k Hk]. apply to_i64_congr with k. lia.
Qed.

Lemma to_i64_idem (x : Z) : to_i64 (to_i64 x) = to_i64 x.
Proof.
  destruct (to_i64_eqm x) as [k Hk]. apply to_i64_congr with k. lia.
Qed.

Section LocalFork.
Variable env : Env.
Variables argc argsPtr : Z.

Lemma build_args_ok (n : nat) :
  forall (t : Z) (st : State),
    (0 < argc -> validRange (defaultMemory st) argsPtr (argc * 4) = true) ->
    build_args argc argsPtr t n st
    = (Ok (map (microtask_args (defaultMemory st) argc argsPtr)
             (map (fun i => t + Z.of_nat i) (seq 0 n))), st).
Proof.
  induction n as [| n IH]; intros t st Hv.
  - reflexivity.
  - rewrite numbers_next. cbn [build_args map].
    unfold bind at 1. unfold get at 1. unfold bind at 1.
    assert (Hptrs :
              (if 0 <? argc
               then
                 (fun st0 : State =>
                    if validRange (defaultMemory st0) argsPtr (argc * 4)
                    then (Ok tt, st0)
                    else (Throw outOfBoundsMemoryAccess, st0)) ;;;
                 ret (read_pointers (defaultMemory st) argsPtr argc)
               else ret []) st
              = (Ok (read_pointers (defaultMemory st) argsPtr argc), st)).
    { destruct (Z.ltb_spec 0 argc) as [Hpos | Hneg].
      - unfold bind, ret. rewrite (Hv Hpos). reflexivity.
      - unfold ret, read_pointers.
        destruct argc; try lia; reflexivity. }
    rewrite Hptrs. unfold bind. rewrite (IH (t + 1) st Hv). reflexivity.
Qed.

Lemma create_threads_ok (f : Z -> list Z) (n : nat) :
  forall (t : Z) (st : State),
    create_threads t (map f (map (fun i => t + Z.of_nat i) (seq 0 n))) st
    = (Ok tt,
       add_events
         (map (fun u => ev_createThread u (f u))
            (map (fun i => t + Z.of_nat i) (seq 0 n))) st).
Proof.
  induction n as [| n IH]; intros t st.
  - cbn. now rewrite add_events_nil.
  - rewrite numbers_next. cbn [create_threads map].
    unfold bind, emit. fold (add_events [ev_createThread t (f t)] st).
    rewrite IH, add_events_app. reflexivity.
Qed.

Lemma join_threads_ok (n : nat) :
  forall (t numErrors : Z) (st : State),
    to_i64 numErrors = numErrors ->
    join_threads env t n numErrors st
    = (Ok (to_i64 (numErrors + sum_join_codes env t n)),
       add_events (map ev_joinThread (map (fun i => t + Z.of_nat i) (seq 0 n)))
         st).
Proof.
  induction n as [| n IH]; intros t numErrors st Hi64.
  - cbn. rewrite add_events_nil, Z.add_0_r, Hi64. reflexivity.
  - rewrite numbers_next. cbn [join_threads map sum_join_codes].
    unfold bind, emit. fold (add_events [ev_joinThread t] st).
    rewrite IH by apply to_i64_idem.
    rewrite add_events_app, to_i64_add_l. do 3 f_equal. lia.
Qed.

End LocalFork.

(** X20.  A fork in local mode, with the microtask found in the function
    table and the argument array (if any) inside the guest memory.  The
    pushed thread count is reset to -1 first.  A negative size of the next
    team is then refused by the vectors that are to hold the threads, with
    nothing created.  Otherwise one thread is created for each number from
    0 up to that size, each with its number, the argument count and the
    argument pointers as arguments; only then are the threads joined, in
    the same order.  The call fails when the codes the threads end with,
    added up in 64 bits, do not give 0, and succeeds otherwise, also when
    codes different from 0 cancel out.  The failure is the one of the
    malformed format string of its message. *)
Theorem local_fork_creates_then_joins
  (env : Env) (st : State) (locPtr argc microtaskPtr argsPtr func : Z) :
  let l := thisLevel st in
  let m := defaultMemory st in
  let n := get_next_level_num_threads env l in
  let total := to_i64 (sum_join_codes env 0 (Z.to_nat n)) in
  let st0 := set_level (mkLevel (num_threads l) (-1) (reduceMutex l)) st in
  userNumDevice st = 1 ->
  tableFunction env microtaskPtr = Ok func ->
  (0 < argc -> validRange m argsPtr (argc * 4) = true) ->
  __kmpc_fork_call env locPtr argc microtaskPtr argsPtr st
  = (if n <? 0 then (Throw length_error, st0)
     else
       (if total =? 0 then Ok tt else Throw format_error,
        add_events
          (map (fun t => ev_createThread t (microtask_args m argc argsPtr t))
             (thread_numbers n)
           ++ map ev_joinThread (thread_numbers n))
          st0)).
Proof.
  intros l m n total st0 Hdev Htable Hv.
  unfold __kmpc_fork_call, asFunction. unfold bind at 1. rewrite Htable.
  unfold bind at 1, get at 1. rewrite Hdev.
  change (negb (1 =? 1)) with false. cbv iota.
  unfold fork_local. unfold bind at 1, get at 1.
  fold l. fold n. unfold bind at 1. fold st0.
  unfold bind at 1. unfold reserve at 1.
  destruct (Z.ltb_spec n 0) as [Hneg | Hpos]; [reflexivity |].
  unfold ret at 1. cbv beta iota.
  unfold bind at 1.
  rewrite (build_args_ok argc argsPtr (Z.to_nat n) 0 st0 Hv).
  change (defaultMemory st0) with m.
  unfold bind at 1.
  rewrite (create_threads_ok (microtask_args m argc argsPtr) (Z.to_nat n) 0 st0).
  unfold bind at 1. rewrite join_threads_ok by reflexivity.
  rewrite add_events_app.
  rewrite <- !thread_numbers_from_zero.
  change (to_i64 (0 + sum_join_codes env 0 (Z.to_nat n))) with total.
  unfold malformed_error_message, throwException, ret.
  destruct (total =? 0); reflexivity.
Qed.

(** Three threads ending with the codes 1, -1 and 0: the fork succeeds;
    with the codes 0, 0 and 2 it fails. *)
Lemma local_fork_creates_then_joins_witness :
  fst (__kmpc_fork_call cancelling_codes 0 1 0 0 st_local_fork) = Ok tt
  /\ fst (__kmpc_fork_call one_failing_code 0 1 0 0 st_local_fork)
     = Throw format_error
  /\ events (snd (__kmpc_fork_call cancelling_codes 0 1 0 0 st_local_fork))
     = [ev_createThread 0 [0; 1; 8]; ev_createThread 1 [1; 1; 8];
        ev_createThread 2 [2; 1; 8];
        ev_joinThread 0; ev_joinThread 1; ev_joinThread 2].
Proof.
  rewrite (local_fork_creates_then_joins cancelling_codes st_local_fork 0 1 0 0
             0 eq_refl eq_refl (fun _ => eq_refl)).
  rewrite (local_fork_creates_then_joins one_failing_code st_local_fork 0 1 0 0
             0 eq_refl eq_refl (fun _ => eq_refl)).
  repeat split.
Defined.

(** *** What a fork does to the pushed thread count *)

Lemma keeps_level_ret {A : Type} (a : A) : keeps_level (ret a).
Proof. intros st. reflexivity. Qed.

Lemma keeps_level_throw {A : Type} (t : Trap) :
  keeps_level (throwException t : Exec State A).
Proof. intros st. reflexivity. Qed.

Lemma keeps_level_get {A : Type} (f : State -> A) : keeps_level (get f).
Proof. intros st. reflexivity. Qed.

Lemma keeps_level_emit (e : Event) : keeps_level (emit e).
Proof. intros st. reflexivity. Qed.

Lemma keeps_level_memoryRef (p : Z) : keeps_level (memoryRef p).
Proof.
  intros st. unfold memoryRef.
  destruct (validRange (defaultMemory st) p 4); reflexivity.
Qed.

Lemma keeps_level_wr (p v : Z) : keeps_level (wr p v).
Proof. intros st. reflexivity. Qed.

Lemma keeps_level_bind {A B : Type} (c : Exec State A) (k : A -> Exec State B) :
  keeps_level c -> (forall a, keeps_level (k a)) -> keeps_level (bind c k).
Proof.
  intros Hc Hk st. unfold bind. specialize (Hc st).
  destruct (c st) as [[a | t] st1]; cbn in Hc.
  - rewrite (Hk a st1). exact Hc.
  - exact Hc.
Qed.

Lemma keeps_level_if {A : Type} (b : bool) (c d : Exec State A) :
  keeps_level c -> keeps_level d -> keeps_level (if b then c else d).
Proof. destruct b; auto. Qed.

Create HintDb keeps.
#[local] Hint Resolve keeps_level_ret keeps_level_throw keeps_level_get
  keeps_level_emit keeps_level_memoryRef keeps_level_wr : keeps.

Ltac keeps_step :=
  first [ apply keeps_level_bind; [| intros ?]
        | apply keeps_level_if
        | solve [auto with keeps] ].

Lemma keeps_level_spawn_chained
  (env : Env) (argc argsPtr threadNum : Z) (reducePtr : option Z) :
  keeps_level (spawn_chained env argc argsPtr threadNum reducePtr).
Proof.
  unfold spawn_chained. repeat keeps_step.
  intros st. destruct (validRange (defaultMemory st) argsPtr (argc * 4));
    reflexivity.
Qed.

Lemma keeps_level_spawn_all (env : Env) (argc argsPtr : Z) (n : nat) :
  forall (threadNum : Z) (reducePtr : option Z),
    keeps_level (spawn_all env argc argsPtr threadNum n reducePtr).
Proof.
  induction n as [| n IH]; intros threadNum reducePtr; cbn [spawn_all].
  - auto with keeps.
  - apply keeps_level_bind; [apply keeps_level_spawn_chained | intros r].
    apply keeps_level_bind; [apply IH | intros rest]. auto with keeps.
Qed.

Lemma keeps_level_await_all (env : Env) (chainedThreads : list Z) :
  forall numErrors, keeps_level (await_all env chainedThreads numErrors).
Proof.
  induction chainedThreads as [| callId rest IH]; intros numErrors;
    cbn [await_all].
  - auto with keeps.
  - apply keeps_level_bind; [| intros returnCode; apply IH].
    unfold await_chained. repeat keeps_step.
Qed.

Lemma keeps_level_reserve (n : Z) : keeps_level (reserve n).
Proof. unfold reserve. apply keeps_level_if; auto with keeps. Qed.

Lemma keeps_level_fork_distributed (env : Env) (argc microtaskPtr argsPtr : Z) :
  keeps_level (fork_distributed env argc microtaskPtr argsPtr).
Proof.
  unfold fork_distributed.
  apply keeps_level_bind; [auto with keeps | intros l].
  apply keeps_level_bind; [apply keeps_level_reserve | intros _].
  apply keeps_level_bind; [auto with keeps | intros _].
  apply keeps_level_bind; [auto with keeps | intros key].
  apply keeps_level_bind.
  { apply keeps_level_if; [| auto with keeps].
    apply keeps_level_bind; [auto with keeps | intros _].
    intros st. reflexivity. }
  intros _.
  apply keeps_level_bind; [apply keeps_level_spawn_all | intros spawned].
  apply keeps_level_bind; [apply keeps_level_await_all | intros numErrors].
  apply keeps_level_if; [apply keeps_level_throw |].
  apply keeps_level_bind; [auto with keeps | intros _].
  destruct (fst spawned); auto with keeps.
Qed.

(** X21.  A distributed fork leaves the level of the calling thread as it
    was, however the fork ends: the thread count pushed by
    [__kmpc_push_num_threads] for that fork stays in place for the next
    one, whereas a local fork resets it to -1. *)
Theorem distributed_fork_keeps_pushed_threads
  (env : Env) (st : State) (numThreads locPtr argc microtaskPtr argsPtr : Z) :
  0 < numThreads ->
  userNumDevice st <> 1 ->
  exists st1,
    __kmpc_push_num_threads 0 0 numThreads st = (Ok tt, st1)
    /\ pushed_num_threads
         (thisLevel
            (snd (__kmpc_fork_call env locPtr argc microtaskPtr argsPtr st1)))
       = numThreads.
Proof.
  intros Hpos Hdev.
  unfold __kmpc_push_num_threads.
  destruct (Z.ltb_spec 0 numThreads) as [_ | ?]; [| lia].
  eexists. split; [reflexivity |].
  unfold __kmpc_fork_call, asFunction. unfold bind at 1.
  destruct (tableFunction env microtaskPtr) as [func | t]; [| reflexivity].
  unfold bind at 1, get at 1.
  cbn [userNumDevice set_level].
  destruct (Z.eqb_spec (userNumDevice st) 1) as [? | _]; [contradiction |].
  cbn [negb].
  rewrite keeps_level_fork_distributed. reflexivity.
Qed.

Lemma distributed_fork_keeps_pushed_threads_witness :
  exists st1,
    __kmpc_push_num_threads 0 0 5 st_fork = (Ok tt, st1)
    /\ pushed_num_threads
         (thisLevel
            (snd (__kmpc_fork_call (three_calls (FunctionResult 0)) 0 1 0 0
                    st1)))
       = 5.
Proof.
  apply (distributed_fork_keeps_pushed_threads
           (three_calls (FunctionResult 0)) st_fork 5 0 1 0 0).
  - lia.
  - cbn. discriminate.
Defined.

End OpenMPExtra.
